(** * LUTHIER.AI guitar configurator: a shallow embedding of its logic

    The development follows the layout of the TypeScript sources:
    - [types.ts]: the closed enumerations and the [GuitarSpecs] record;
    - [constants.ts]: the characteristic tables;
    - [services/geminiService.ts]: the three request/response services;
    - [App.tsx]: the React state of the shell and its event handlers.

    JavaScript strings are modelled by [string]; every character stands
    for one code unit below 256 (the Latin-1 range). *)

From Stdlib Require Import String Ascii List NArith Bool Lia.
From stdpp Require Import base option list gmap strings.

Import ListNotations.
Local Open Scope string_scope.
Local Open Scope list_scope.

(** ** JavaScript string primitives *)

Module JS.

(** The one-character string of a code unit. *)
Definition chr (n : N) : string := String (ascii_of_N n) EmptyString.

(** The double quote, kept apart from the string literals. *)
Definition dq : string := chr 34.

(** [a || b] on possibly-undefined strings: [undefined] and the empty
    string are falsy. *)
Definition or_else (o : option string) (d : string) : string :=
  match o with
  | Some (String c s) => String c s
  | _ => d
  end.

(** Truthiness of a possibly-undefined string. *)
Definition truthy (o : option string) : bool :=
  match o with
  | Some (String _ _) => true
  | _ => false
  end.

(** A value interpolated in a template literal. *)
Definition interpolate (o : option string) : string :=
  match o with
  | Some s => s
  | None => "undefined"
  end.

(** [String.prototype.toLowerCase] on one Latin-1 code unit: the
    letters A-Z and the accented capitals U+00C0..U+00DE (the
    multiplication sign U+00D7 apart) move up by 32. *)
Definition toLowerCase_char (c : ascii) : ascii :=
  let n := N_of_ascii c in
  if ((65 <=? n) && (n <=? 90)
      || (192 <=? n) && (n <=? 222) && negb (n =? 215))%N
  then ascii_of_N (n + 32)
  else c.

Fixpoint toLowerCase (s : string) : string :=
  match s with
  | EmptyString => EmptyString
  | String c r => String (toLowerCase_char c) (toLowerCase r)
  end.

(** [s.startsWith(w)]. *)
Fixpoint startsWith (s w : string) : bool :=
  match w, s with
  | EmptyString, _ => true
  | String _ _, EmptyString => false
  | String d w', String c s' => Ascii.eqb c d && startsWith s' w'
  end.

(** [s.includes(w)]: [w] starts at some position of [s]. *)
Fixpoint includes (s w : string) : bool :=
  startsWith s w ||
  match s with
  | EmptyString => false
  | String _ s' => includes s' w
  end.

(** White space removed by [String.prototype.trim], below 256. *)
Definition is_white (c : ascii) : bool :=
  let n := N_of_ascii c in
  ((9 <=? n) && (n <=? 13) || (n =? 32) || (n =? 160))%N.

Fixpoint trimStart (s : string) : string :=
  match s with
  | EmptyString => EmptyString
  | String c r => if is_white c then trimStart r else s
  end.

(** Only the emptiness of [s.trim()] is ever observed by the shell; it
    is that of [trimStart s]. *)
Definition trim_is_empty (s : string) : bool :=
  match trimStart s with
  | EmptyString => true
  | String _ _ => false
  end.

(** The text before the first occurrence of the separator and the rest
    after it, if the separator occurs. *)
Fixpoint cut (sep : ascii) (s : string) : string * option string :=
  match s with
  | EmptyString => (EmptyString, None)
  | String c r =>
      if Ascii.eqb c sep then (EmptyString, Some r)
      else let '(h, t) := cut sep r in (String c h, t)
  end.

(** [s.split(sep)[1]] for a one-character separator: the second field,
    [undefined] when the separator does not occur. *)
Definition split_at_1 (sep : ascii) (s : string) : option string :=
  match cut sep s with
  | (_, Some rest) => Some (fst (cut sep rest))
  | (_, None) => None
  end.

End JS.

(** ** types.ts *)

Inductive BodyWood := MAHOGANY | ASH | ALDER | MAPLE | BASSWOOD | KOA.

Inductive NeckProfile := MODERN_C | VINTAGE_50S | SLIM_TAPER | WIZARD.

Inductive FretboardMaterial := ROSEWOOD | FB_MAPLE | EBONY | PAU_FERRO.

Inductive BridgeSystem :=
  TUNE_O_MATIC | HARDTAIL | SYNCHRONIZED_TREMOLO | FLOYD_ROSE | EVERTUNE.

Inductive PickupConfig := SSS | HSS | HH | P90.

(** The string value of each enum member. *)
Definition BodyWood_value (w : BodyWood) : string :=
  match w with
  | MAHOGANY => "Mahogany"
  | ASH => "Swamp Ash"
  | ALDER => "Alder"
  | MAPLE => "Maple"
  | BASSWOOD => "Basswood"
  | KOA => "Koa"
  end.

Definition NeckProfile_value (p : NeckProfile) : string :=
  match p with
  | MODERN_C => "Modern C"
  | VINTAGE_50S => "50s Vintage U"
  | SLIM_TAPER => "Slim Taper D"
  | WIZARD => "Super Thin (Wizard)"
  end.

Definition FretboardMaterial_value (f : FretboardMaterial) : string :=
  match f with
  | ROSEWOOD => "Rosewood"
  | FB_MAPLE => "Maple"
  | EBONY => "Ebony"
  | PAU_FERRO => "Pau Ferro"
  end.

Definition BridgeSystem_value (b : BridgeSystem) : string :=
  match b with
  | TUNE_O_MATIC => "Tune-o-matic (Fixed)"
  | HARDTAIL => "Hardtail (String-thru)"
  | SYNCHRONIZED_TREMOLO => "Synchronized Tremolo (Vintage)"
  | FLOYD_ROSE => "Floyd Rose (Double Locking)"
  | EVERTUNE => "Evertune (Spring Tension)"
  end.

Definition PickupConfig_value (p : PickupConfig) : string :=
  match p with
  | SSS => "SSS (3 Single Coils)"
  | HSS => "HSS (Humbucker Bridge)"
  | HH => "HH (Dual Humbuckers)"
  | P90 => "Dual P-90s"
  end.

Record GuitarSpecs := mkGuitarSpecs {
  bodyWood : BodyWood;
  neckProfile : NeckProfile;
  fretboard : FretboardMaterial;
  bridge : BridgeSystem;
  pickups : PickupConfig;
  scaleLength : string;
  fretboardRadius : string;
  notes : option string;
  construction : option string;
  philosophy : option string
}.

(** [Partial<GuitarSpecs>] as it comes out of the analysis reply: every
    field optional and, at run time, a plain string. *)
Record PartialSpecs := mkPartialSpecs {
  d_bodyWood : option string;
  d_neckProfile : option string;
  d_fretboard : option string;
  d_bridge : option string;
  d_pickups : option string;
  d_scaleLength : option string;
  d_fretboardRadius : option string;
  d_notes : option string;
  d_construction : option string;
  d_philosophy : option string
}.

Record AnalysisResult := mkAnalysisResult {
  detectedSpecs : option PartialSpecs;
  luthierNotes : string
}.

Inductive Role := user | model.

Record ChatMessage := mkChatMessage {
  role : Role;
  text : string
}.

(** ** constants.ts *)

(** The tables are object literals keyed by the enum values; a
    [Record<E, string>] is read with [table[e]]. *)

Definition WOOD_CHARACTERISTICS : gmap string string :=
  <[BodyWood_value MAHOGANY := "High density, warm lows/mids, slow decay. Visually porous grain, often reddish-brown."]>
  (<[BodyWood_value ASH := "Lightweight, scooped mids, pronounced 'twang' and high-end snap. Distinctive, bold grain patterns."]>
  (<[BodyWood_value ALDER := "Balanced weight and frequency response. The neutral standard for bolt-on bodies. Closed grain."]>
  (<[BodyWood_value MAPLE := "Extreme density, very bright attack, heavy weight. Tight grain, often figured (flame/quilt)."]>
  (<[BodyWood_value BASSWOOD := "Soft, lightweight, neutral tone with strong fundamental. Minimal grain definition."]>
  (<[BodyWood_value KOA := "Medium density, crisp highs that warm up over time. Exotic, highly figured golden/brown grain."]>
   ∅))))).

Definition NECK_CHARACTERISTICS : gmap string string :=
  <[NeckProfile_value MODERN_C := "Oval ergonomic profile, standard for contemporary playability."]>
  (<[NeckProfile_value VINTAGE_50S := "Thick 'Baseball Bat' profile, maximizes mechanical coupling and sustain."]>
  (<[NeckProfile_value SLIM_TAPER := "Flat 'D' shape, low mass, favored for faster playing styles."]>
  (<[NeckProfile_value WIZARD := "Ultra-thin, flat radius, reinforced with volute or multi-ply for stability."]>
   ∅))).

Definition BRIDGE_MECHANICS : gmap string string :=
  <[BridgeSystem_value TUNE_O_MATIC := "Fixed bridge, sharp break angle, maximizes body resonance transfer."]>
  (<[BridgeSystem_value HARDTAIL := "String-through body, high tuning stability, direct vibration transfer."]>
  (<[BridgeSystem_value SYNCHRONIZED_TREMOLO := "Vintage vibrato fulcrum, relies on spring claw tension."]>
  (<[BridgeSystem_value FLOYD_ROSE := "Double locking nut/bridge, infinite sustain, dive-bomb capability."]>
  (<[BridgeSystem_value EVERTUNE := "Mechanical spring modules per saddle, constant tension, zero pitch drift."]>
   ∅)))).

Definition FRETBOARD_RESPONSE : gmap string string :=
  <[FretboardMaterial_value EBONY := "Extreme hardness, glass-like surface, immediate transient attack."]>
  (<[FretboardMaterial_value FB_MAPLE := "Finished surface, bright snap, distinct separation of notes."]>
  (<[FretboardMaterial_value ROSEWOOD := "Oily open pore, warm attack, attenuates harsh high frequencies."]>
  (<[FretboardMaterial_value PAU_FERRO := "Harder than rosewood, snappy attack, tight grain structure."]>
   ∅))).

(** A table entry that exists and is not the empty string. *)
Definition described (table : gmap string string) (key : string) : Prop :=
  exists s : string, table !! key = Some s /\ s <> "".

(** ** The platform: hosted models, file reader, JSON *)

(** A JavaScript [Error], identified by its message. *)
Definition Error := string.

Inductive Outcome (A : Type) : Type :=
| Return (a : A)
| Throw (e : Error).
Arguments Return {A} a.
Arguments Throw {A} e.

Record InlineData := mkInlineData {
  mimeType : option string;
  data : option string
}.

Record Part := mkPart {
  inlineData : option InlineData;
  part_text : option string
}.

Inductive Schema :=
| STRING
| OBJECT (properties : list Property)
with Property :=
| property (name : string) (schema : Schema).

(** Numeric literals of the configuration are kept as written. *)
Record Config := mkConfig {
  responseMimeType : option string;
  responseSchema : option Schema;
  systemInstruction : option string;
  temperature : option string;
  imageConfig : option (string * string)
}.

Record GenerateContentRequest := mkRequest {
  req_model : string;
  contents : list Part;
  config : Config
}.

Record Content := mkContent { parts : option (list Part) }.

Record Candidate := mkCandidate { content : option Content }.

Record GenerateContentResponse := mkResponse {
  resp_text : option string;
  candidates : option (list Candidate)
}.

Record Chat := mkChat {
  chat_model : string;
  chat_config : Config
}.

(** What [for await] sees of a response stream: the chunks it yields,
    then either completion or the error thrown by the iteration. *)
Record Stream := mkStream {
  chunks : list GenerateContentResponse;
  broken : option Error
}.

Record File := mkFile { file_type : string }.

(** The calls that leave the program, in the order they are issued. *)
Inductive Call :=
| CallGenerateContent (req : GenerateContentRequest)
| CallChatsCreate (chat : Chat)
| CallSendMessageStream (chat : Chat) (message : string).

(** Everything outside the program. The hosted models are not
    deterministic: properties are stated for every world.

    [JSON.parse] accepts any JSON text, [null] included, and the cast of
    its value to [AnalysisResult] checks nothing: [None] is the value
    [null]. The other values that are not objects are told apart by the
    shell no further than this: [false], [0] and the empty string are
    falsy and have no property, as [null] read through [?.] and [&&];
    [true], a number, a non-empty string or an array is truthy and has
    no [detectedSpecs], as a result whose [detectedSpecs] is absent. *)
Record World := mkWorld {
  API_KEY : option string;
  models_generateContent :
    GenerateContentRequest -> Outcome GenerateContentResponse;
  chat_sendMessageStream : Chat -> string -> Outcome Stream;
  JSON_parse : string -> Outcome (option AnalysisResult);
  FileReader_readAsDataURL : File -> Outcome string
}.

(** ** The React state of [App] *)

Inductive Tab := configurator | advisory.

Record AppState := mkAppState {
  activeTab : Tab;
  originalImage : option string;
  rawFile : option File;
  isAnalyzing : bool;
  isGenerating : bool;
  analysisResult : option AnalysisResult;
  generatedPrompt : option string;
  generatedImage : option string;
  error : option string;
  chatSession : option Chat;
  chatHistory : list ChatMessage;
  chatInput : string;
  isChatting : bool;
  specs : GuitarSpecs
}.

(** The running program: the current React state, the states it went
    through (latest first) and the calls issued so far. *)
Record Machine := mkMachine {
  ui : AppState;
  seen : list AppState;
  calls : list Call
}.

(** ** Asynchronous code: reader of the world, state, exceptions *)

Definition IO (A : Type) : Type := World -> Machine -> Outcome A * Machine.

Definition ret {A} (a : A) : IO A := fun _ m => (Return a, m).

Definition bind {A B} (c : IO A) (k : A -> IO B) : IO B :=
  fun w m =>
    match c w m with
    | (Return a, m') => k a w m'
    | (Throw e, m') => (Throw e, m')
    end.

Definition throw {A} (e : Error) : IO A := fun _ m => (Throw e, m).

Definition try_catch {A} (c : IO A) (handler : Error -> IO A) : IO A :=
  fun w m =>
    match c w m with
    | (Return a, m') => (Return a, m')
    | (Throw e, m') => handler e w m'
    end.

Definition finally {A} (c : IO A) (f : IO unit) : IO A :=
  fun w m =>
    let '(r, m') := c w m in
    match f w m' with
    | (Return _, m'') => (r, m'')
    | (Throw e, m'') => (Throw e, m'')
    end.

Notation "x <- c ;; k" := (bind c (fun x => k))
  (at level 100, c at next level, right associativity).
Notation "c ;; k" := (bind c (fun _ => k))
  (at level 100, right associativity).

(** Reading the world. *)
Definition ask {A} (f : World -> A) : IO A := fun w m => (Return (f w), m).

(** The machine after one more outgoing call. *)
Definition log_call (c : Call) (m : Machine) : Machine :=
  mkMachine (ui m) (seen m) (calls m ++ [c]).

(** An outgoing call: logged, then answered by the world. *)
Definition perform {A} (c : Call) (answer : World -> Outcome A) : IO A :=
  fun w m => (answer w, log_call c m).

(** The state captured by the closure of a handler. *)
Definition snapshot : IO AppState := fun _ m => (Return (ui m), m).

(** The machine after one React state update. *)
Definition commit (f : AppState -> AppState) (m : Machine) : Machine :=
  mkMachine (f (ui m)) (ui m :: seen m) (calls m).

Definition update (f : AppState -> AppState) : IO unit :=
  fun _ m => (Return tt, commit f m).

(** The machine left by a computation, and its result. *)
Definition run {A} (c : IO A) (w : World) (m : Machine) : Machine :=
  snd (c w m).

Definition result {A} (c : IO A) (w : World) (m : Machine) : Outcome A :=
  fst (c w m).

Definition boot (s : AppState) : Machine := mkMachine s [] [].

(** ** services/geminiService.ts *)

Definition missing_key : Error :=
  "API Key not found in environment variables".

Definition getAiClient : IO unit :=
  apiKey <- ask API_KEY ;;
  if negb (JS.truthy apiKey)
  then throw missing_key
  else ret tt.

Definition fileToGenerativePart (file : File) : IO (option string) :=
  fun w m =>
    match FileReader_readAsDataURL w file with
    | Return base64String => (Return (JS.split_at_1 "," base64String), m)
    | Throw e => (Throw e, m)
    end.

Definition analysis_prompt : string :=
  "
    Act as an expert Luthier.
    Analiza la imagen adjunta bajo la matriz t" +:+
    JS.chr 233 +:+
    "cnica de est" +:+
    JS.chr 225 +:+
    "ndares industriales. Identifica:
    1. Tipo de cuerpo y posible madera base (basado en la veta/color).
    2. Configuraci" +:+
    JS.chr 243 +:+
    "n de pastillas (Single-coil, Humbucker, P-90).
    3. Tipo de puente y construcci" +:+
    JS.chr 243 +:+
    "n del m" +:+
    JS.chr 225 +:+
    "stil (Bolt-on vs Set-neck).
    4. Dime qu" +:+
    JS.chr 233 +:+
    " 'Filosof" +:+
    JS.chr 237 +:+
    "a' sigue esta guitarra: " +:+
    JS.chr 191 +:+
    "Modular (Fender), Artesanal (Gibson) o Alto Rendimiento (Ibanez/Superstrat)?
    
    Return a JSON object with the following structure:
    {
      " +:+
    JS.dq +:+
    "detectedSpecs" +:+
    JS.dq +:+
    ": {
        " +:+
    JS.dq +:+
    "bodyWood" +:+
    JS.dq +:+
    ": " +:+
    JS.dq +:+
    "Probable wood (e.g. Mahogany, Ash, Alder)" +:+
    JS.dq +:+
    ",
        " +:+
    JS.dq +:+
    "bridge" +:+
    JS.dq +:+
    ": " +:+
    JS.dq +:+
    "Bridge type" +:+
    JS.dq +:+
    ",
        " +:+
    JS.dq +:+
    "pickups" +:+
    JS.dq +:+
    ": " +:+
    JS.dq +:+
    "Pickup config" +:+
    JS.dq +:+
    ",
        " +:+
    JS.dq +:+
    "fretboard" +:+
    JS.dq +:+
    ": " +:+
    JS.dq +:+
    "Fretboard material" +:+
    JS.dq +:+
    ",
        " +:+
    JS.dq +:+
    "construction" +:+
    JS.dq +:+
    ": " +:+
    JS.dq +:+
    "Bolt-on or Set-neck" +:+
    JS.dq +:+
    ",
        " +:+
    JS.dq +:+
    "philosophy" +:+
    JS.dq +:+
    ": " +:+
    JS.dq +:+
    "Modular (Fender), Artesanal (Gibson) or Alto Rendimiento" +:+
    JS.dq +:+
    "
      },
      " +:+
    JS.dq +:+
    "luthierNotes" +:+
    JS.dq +:+
    ": " +:+
    JS.dq +:+
    "A brief technical analysis (max 2 sentences) describing the guitar's likely tonal characteristics based on visual evidence." +:+
    JS.dq +:+
    "
    }
  ".

Definition analysis_schema : Schema :=
  OBJECT
    [ property "detectedSpecs"
        (OBJECT
           [ property "bodyWood" STRING;
             property "bridge" STRING;
             property "pickups" STRING;
             property "fretboard" STRING;
             property "construction" STRING;
             property "philosophy" STRING ]);
      property "luthierNotes" STRING ].

Definition analysis_request (base64Image : option string)
  : GenerateContentRequest :=
  mkRequest "gemini-3-flash-preview"
    [ mkPart (Some (mkInlineData (Some "image/jpeg") base64Image)) None;
      mkPart None (Some analysis_prompt) ]
    (mkConfig (Some "application/json") (Some analysis_schema)
       None None None).

Definition analyzeGuitarImage (base64Image : option string)
  : IO (option AnalysisResult) :=
  getAiClient ;;
  try_catch
    (let req := analysis_request base64Image in
     response <- perform (CallGenerateContent req)
                   (fun w => models_generateContent w req) ;;
     let text := resp_text response in
     if negb (JS.truthy text) then throw "No analysis received"
     else fun w m => (JSON_parse w (JS.interpolate text), m))
    (fun error => throw error).

(** The words that switch the synthesizer to the hybrid instruction. *)
Definition trigger_words : list string :=
  ["frankenstein"; "relic"; "hybrid"].

Definition isFrankenstein (notes : string) : bool :=
  JS.includes (JS.toLowerCase notes) "frankenstein"
  || JS.includes (JS.toLowerCase notes) "relic"
  || JS.includes (JS.toLowerCase notes) "hybrid".

Definition deviate_instruction : string :=
  "Create a 'High Performance Hybrid' aesthetic. Act as a Custom Shop Luthier blending the original shape with aggressive, modern, or distressed (relic) modifications. Deviate from the original vintage philosophy to achieve a unique 'Frankenstein' super-mod look.".

Definition preserve_instruction (originalPhilosophy : string) : string :=
  "Ensure the aesthetic respects the original instrument's philosophy (" +:+
  originalPhilosophy +:+
  ") unless the modification explicitly contradicts it.".

Definition philosophyInstruction_of
  (targetSpecs : GuitarSpecs) (originalPhilosophy : string) : string :=
  let notes := JS.or_else (notes targetSpecs) "" in
  if isFrankenstein notes
  then deviate_instruction
  else preserve_instruction originalPhilosophy.

Definition lutherie_systemInstruction : string :=
  "
    Act as an expert Digital Luthier and Product Architect. 
    Your goal is to write a highly technical, photorealistic image generation prompt based on requested modifications to a guitar.
    You must output ONLY the prompt text in English.
  ".

Definition userPrompt_of
  (targetSpecs : GuitarSpecs) (originalPhilosophy : string) : string :=
  let notes := JS.or_else (notes targetSpecs) "" in
  let philosophyInstruction :=
    philosophyInstruction_of targetSpecs originalPhilosophy in
  "
    Context: The user wants to modify the guitar shown in the attached image.
    
    Original Instrument Philosophy: " +:+
    originalPhilosophy +:+
    "
    
    Requested Modifications (Target Specs):
    - Body Material: " +:+
    BodyWood_value (bodyWood targetSpecs) +:+
    "
    - Fretboard: " +:+
    FretboardMaterial_value (fretboard targetSpecs) +:+
    "
    - Bridge System: " +:+
    BridgeSystem_value (bridge targetSpecs) +:+
    "
    - Pickup Config: " +:+
    PickupConfig_value (pickups targetSpecs) +:+
    "
    - Neck Profile: " +:+
    NeckProfile_value (neckProfile targetSpecs) +:+
    "
    - Additional Notes: " +:+
    notes +:+
    "

    Action: Generate an ultra-detailed technical visual description to be used as an image generation prompt (e.g. for Stable Diffusion or Imagen).
    
    Mandatory Requirements:
    1. LIGHTING & ANGLE: Maintain the ORIGINAL lighting, angle, and perspective of the reference image exactly.
    2. MATERIAL PHYSICS: Describe the specific wood grain and finish based on lutherie taxonomy (e.g., if Mahogany -> " +:+
    JS.dq +:+
    "porous reddish-brown grain with nitrocellulose fill" +:+
    JS.dq +:+
    "; if Ash -> " +:+
    JS.dq +:+
    "deep open pore grain" +:+
    JS.dq +:+
    ").
    3. MECHANICS: 
       - If Evertune is selected, describe it as " +:+
    JS.dq +:+
    "modern chrome Evertune bridge system with individual saddle modules and spring tensioners" +:+
    JS.dq +:+
    ".
       - If Floyd Rose, describe " +:+
    JS.dq +:+
    "double-locking tremolo system with fine tuners and locking nut" +:+
    JS.dq +:+
    ".
    4. PHILOSOPHY: " +:+
    philosophyInstruction +:+
    "
    
    Output Format: 
    A single paragraph English prompt starting with " +:+
    JS.dq +:+
    "A photorealistic 8k close-up shot of a modified electric guitar..." +:+
    JS.dq +:+
    ". 
    Focus heavily on textures (wood pores, metal sheen, plastic aging).
  ".

Definition lutherie_request (base64Original : option string)
  (targetSpecs : GuitarSpecs) (originalPhilosophy : string)
  : GenerateContentRequest :=
  mkRequest "gemini-3-pro-preview"
    [ mkPart (Some (mkInlineData (Some "image/jpeg") base64Original)) None;
      mkPart None (Some (userPrompt_of targetSpecs originalPhilosophy)) ]
    (mkConfig None None (Some lutherie_systemInstruction) (Some "0.7") None).

(** The third parameter has a default value, used when the argument is
    [undefined]. *)
Definition generateLutheriePrompt (base64Original : option string)
  (targetSpecs : GuitarSpecs) (originalPhilosophy_arg : option string)
  : IO string :=
  let originalPhilosophy :=
    match originalPhilosophy_arg with
    | Some p => p
    | None => "Standard Industry Design"
    end in
  getAiClient ;;
  try_catch
    (let req :=
       lutherie_request base64Original targetSpecs originalPhilosophy in
     response <- perform (CallGenerateContent req)
                   (fun w => models_generateContent w req) ;;
     ret (JS.or_else (resp_text response) "Failed to generate prompt."))
    (fun error => throw error).

Definition image_request (technicalPrompt : string)
  : GenerateContentRequest :=
  mkRequest "gemini-3-pro-image-preview"
    [ mkPart None (Some technicalPrompt) ]
    (mkConfig None None None None (Some ("1K", "1:1"))).

(** The [for ... of] loop over the parts of the reply: the first part
    with non-empty inline data decides. *)
Fixpoint first_inline_image (ps : list Part) : option string :=
  match ps with
  | [] => None
  | part :: rest =>
      match inlineData part with
      | Some d =>
          if JS.truthy (data d)
          then Some ("data:" +:+ JS.interpolate (mimeType d) +:+
                     ";base64," +:+ JS.interpolate (data d))
          else first_inline_image rest
      | None => first_inline_image rest
      end
  end.

(** [response.candidates?.[0]?.content?.parts]. *)
Definition first_candidate_parts (response : GenerateContentResponse)
  : option (list Part) :=
  cs ← candidates response; c ← head cs; ct ← content c; parts ct.

Definition generateModifiedGuitarImage (technicalPrompt : string)
  : IO string :=
  getAiClient ;;
  try_catch
    (let req := image_request technicalPrompt in
     response <- perform (CallGenerateContent req)
                   (fun w => models_generateContent w req) ;;
     match first_candidate_parts response with
     | None => throw "No image generated"
     | Some ps =>
         match first_inline_image ps with
         | Some uri => ret uri
         | None => throw "Image data not found in response"
         end
     end)
    (fun error => throw error).

Definition chat_systemInstruction : string :=
  "
    You are an Expert Luthier and Guitar Technician.
    Your role is to advise users on guitar specifications, tonewoods, and mechanics.
    
    KNOWLEDGE BASE (STRICT ADHERENCE):
    
    1. TONEWOODS (Material Taxonomy):
       - Mahogany: Warm, low-mid focus, high density.
       - Ash (Fresno): Bright, scooped mids, 'Twang', lightweight.
       - Alder (Aliso): Balanced, the industry standard neutral.
       - Maple (Arce): EXTREME ATTACK, definition in transients, snap.
       - Ebony: Immediate response, glass-like reflection.
       
    2. GEOMETRY (Neck Profiles):
       - 50s Vintage (U/Baseball Bat): Thick mass, maximizes mechanical coupling and sustain. Ideal for vintage feel.
       - Modern C: Standard ergonomic.
       - Slim Taper: Fast, low mass.
       
    3. SCALES:
       - 25.5" +:+
    JS.dq +:+
    ": High tension, snap (Fender style).
       - 24.75" +:+
    JS.dq +:+
    ": Lower tension, easier bends, warmer (Gibson style).

    BEHAVIOR:
    - Answer questions directly and concisely.
    - If a user asks for " +:+
    JS.dq +:+
    "Attack" +:+
    JS.dq +:+
    " or " +:+
    JS.dq +:+
    "Definition" +:+
    JS.dq +:+
    ", ALWAYS recommend MAPLE (Arce).
    - If a user asks for " +:+
    JS.dq +:+
    "Vintage" +:+
    JS.dq +:+
    " feel, recommend 50s profiles.
    - Use technical terminology (transients, coupling, frequency response).
  ".

Definition createLuthierChatSession : IO Chat :=
  getAiClient ;;
  let chat :=
    mkChat "gemini-3-flash-preview"
      (mkConfig None None (Some chat_systemInstruction) (Some "0.5") None) in
  perform (CallChatsCreate chat) (fun _ => Return chat).

(** ** App.tsx *)

Definition default_specs : GuitarSpecs :=
  mkGuitarSpecs ALDER MODERN_C ROSEWOOD TUNE_O_MATIC HH
    ("24.75" +:+ JS.dq) ("12" +:+ JS.dq) (Some "") None None.

Definition initial_state : AppState :=
  mkAppState configurator None None false false None None None None
    None [] "" false default_specs.

(** One field of the state replaced. *)
Definition with_activeTab (v : Tab) (s : AppState) : AppState :=
  mkAppState v (originalImage s) (rawFile s) (isAnalyzing s)
    (isGenerating s) (analysisResult s) (generatedPrompt s)
    (generatedImage s) (error s) (chatSession s) (chatHistory s)
    (chatInput s) (isChatting s) (specs s).

Definition with_originalImage (v : option string) (s : AppState) : AppState :=
  mkAppState (activeTab s) v (rawFile s) (isAnalyzing s) (isGenerating s)
    (analysisResult s) (generatedPrompt s) (generatedImage s) (error s)
    (chatSession s) (chatHistory s) (chatInput s) (isChatting s) (specs s).

Definition with_rawFile (v : option File) (s : AppState) : AppState :=
  mkAppState (activeTab s) (originalImage s) v (isAnalyzing s)
    (isGenerating s) (analysisResult s) (generatedPrompt s)
    (generatedImage s) (error s) (chatSession s) (chatHistory s)
    (chatInput s) (isChatting s) (specs s).

Definition with_isAnalyzing (v : bool) (s : AppState) : AppState :=
  mkAppState (activeTab s) (originalImage s) (rawFile s) v
    (isGenerating s) (analysisResult s) (generatedPrompt s)
    (generatedImage s) (error s) (chatSession s) (chatHistory s)
    (chatInput s) (isChatting s) (specs s).

Definition with_isGenerating (v : bool) (s : AppState) : AppState :=
  mkAppState (activeTab s) (originalImage s) (rawFile s) (isAnalyzing s) v
    (analysisResult s) (generatedPrompt s) (generatedImage s) (error s)
    (chatSession s) (chatHistory s) (chatInput s) (isChatting s) (specs s).

Definition with_analysisResult (v : option AnalysisResult) (s : AppState) : AppState :=
  mkAppState (activeTab s) (originalImage s) (rawFile s) (isAnalyzing s)
    (isGenerating s) v (generatedPrompt s) (generatedImage s) (error s)
    (chatSession s) (chatHistory s) (chatInput s) (isChatting s) (specs s).

Definition with_generatedPrompt (v : option string) (s : AppState) : AppState :=
  mkAppState (activeTab s) (originalImage s) (rawFile s) (isAnalyzing s)
    (isGenerating s) (analysisResult s) v (generatedImage s) (error s)
    (chatSession s) (chatHistory s) (chatInput s) (isChatting s) (specs s).

Definition with_generatedImage (v : option string) (s : AppState) : AppState :=
  mkAppState (activeTab s) (originalImage s) (rawFile s) (isAnalyzing s)
    (isGenerating s) (analysisResult s) (generatedPrompt s) v (error s)
    (chatSession s) (chatHistory s) (chatInput s) (isChatting s) (specs s).

Definition with_error (v : option string) (s : AppState) : AppState :=
  mkAppState (activeTab s) (originalImage s) (rawFile s) (isAnalyzing s)
    (isGenerating s) (analysisResult s) (generatedPrompt s)
    (generatedImage s) v (chatSession s) (chatHistory s) (chatInput s)
    (isChatting s) (specs s).

Definition with_chatSession (v : option Chat) (s : AppState) : AppState :=
  mkAppState (activeTab s) (originalImage s) (rawFile s) (isAnalyzing s)
    (isGenerating s) (analysisResult s) (generatedPrompt s)
    (generatedImage s) (error s) v (chatHistory s) (chatInput s)
    (isChatting s) (specs s).

Definition with_chatHistory (v : list ChatMessage) (s : AppState) : AppState :=
  mkAppState (activeTab s) (originalImage s) (rawFile s) (isAnalyzing s)
    (isGenerating s) (analysisResult s) (generatedPrompt s)
    (generatedImage s) (error s) (chatSession s) v (chatInput s)
    (isChatting s) (specs s).

Definition with_chatInput (v : string) (s : AppState) : AppState :=
  mkAppState (activeTab s) (originalImage s) (rawFile s) (isAnalyzing s)
    (isGenerating s) (analysisResult s) (generatedPrompt s)
    (generatedImage s) (error s) (chatSession s) (chatHistory s) v
    (isChatting s) (specs s).

Definition with_isChatting (v : bool) (s : AppState) : AppState :=
  mkAppState (activeTab s) (originalImage s) (rawFile s) (isAnalyzing s)
    (isGenerating s) (analysisResult s) (generatedPrompt s)
    (generatedImage s) (error s) (chatSession s) (chatHistory s)
    (chatInput s) v (specs s).

Definition with_specs (v : GuitarSpecs) (s : AppState) : AppState :=
  mkAppState (activeTab s) (originalImage s) (rawFile s) (isAnalyzing s)
    (isGenerating s) (analysisResult s) (generatedPrompt s)
    (generatedImage s) (error s) (chatSession s) (chatHistory s)
    (chatInput s) (isChatting s) v.

(** The state setters returned by [useState]. *)
Definition setActiveTab (v : Tab) : IO unit := update (with_activeTab v).

Definition setOriginalImage (v : option string) : IO unit := update (with_originalImage v).

Definition setRawFile (v : option File) : IO unit := update (with_rawFile v).

Definition setIsAnalyzing (v : bool) : IO unit := update (with_isAnalyzing v).

Definition setIsGenerating (v : bool) : IO unit := update (with_isGenerating v).

Definition setAnalysisResult (v : option AnalysisResult) : IO unit := update (with_analysisResult v).

Definition setGeneratedPrompt (v : option string) : IO unit := update (with_generatedPrompt v).

Definition setGeneratedImage (v : option string) : IO unit := update (with_generatedImage v).

Definition setError (v : option string) : IO unit := update (with_error v).

Definition setChatSession (v : option Chat) : IO unit := update (with_chatSession v).

Definition setChatInput (v : string) : IO unit := update (with_chatInput v).

Definition setIsChatting (v : bool) : IO unit := update (with_isChatting v).

(** [setChatHistory] and [setSpecs] are called with an updater function
    of the previous value. *)
Definition setChatHistory (f : list ChatMessage -> list ChatMessage)
  : IO unit :=
  update (fun s => with_chatHistory (f (chatHistory s)) s).

Definition setSpecs (f : GuitarSpecs -> GuitarSpecs) : IO unit :=
  update (fun s => with_specs (f (specs s)) s).

Definition greeting : ChatMessage :=
  mkChatMessage model
    "I am your Digital Luthier. Ask me about tonewood physics, neck geometry, or hardware mechanics.".

(** The effect run once on mount. *)
Definition initChat : IO unit :=
  try_catch
    (session <- createLuthierChatSession ;;
     setChatSession (Some session) ;;
     setChatHistory (fun _ => [greeting]))
    (fun e => ret tt).

Definition analysis_failed_message : string :=
  "Failed to analyze image acoustics. Please check API Key.".

Definition performAnalysis (base64Data : option string) : IO unit :=
  setIsAnalyzing true ;;
  finally
    (try_catch
       (result <- analyzeGuitarImage base64Data ;;
        setAnalysisResult result)
       (fun err => setError (Some analysis_failed_message)))
    (setIsAnalyzing false).

(** [event.target.files?.[0]] is the argument. *)
Definition handleFileUpload (file_opt : option File) : IO unit :=
  match file_opt with
  | None => ret tt
  | Some file =>
      setRawFile (Some file) ;;
      base64 <- fileToGenerativePart file ;;
      setOriginalImage
        (Some ("data:" +:+ file_type file +:+ ";base64," +:+
               JS.interpolate base64)) ;;
      setGeneratedImage None ;;
      setGeneratedPrompt None ;;
      setAnalysisResult None ;;
      setError None ;;
      setActiveTab configurator ;;
      performAnalysis base64
  end.

Definition frankenstein_notes : string :=
  "Custom Shop 'Frankenstein' mod. Gibson style Humbucker in bridge. Heavy relic aged Nitrocellulose finish. High performance hybrid aesthetic.".

(** The updater passed to [setSpecs]: the spread of [prev] with four
    fields overwritten. *)
Definition frankenstein_preset (prev : GuitarSpecs) : GuitarSpecs :=
  mkGuitarSpecs ASH (neckProfile prev) (fretboard prev) FLOYD_ROSE HSS
    (scaleLength prev) (fretboardRadius prev) (Some frankenstein_notes)
    (construction prev) (philosophy prev).

Definition applyFrankensteinPreset : IO unit :=
  setSpecs frankenstein_preset.

Definition simulation_failed_message : string :=
  "Simulation failed. Ensure you have a valid Gemini API Key enabled.".

(** [originalImage.split(',')[1]]. *)
Definition base64Data_of (s : AppState) : option string :=
  img ← originalImage s; JS.split_at_1 "," img.

(** [analysisResult?.detectedSpecs?.philosophy || "Standard Industry
    Design"]. *)
Definition philosophy_of (s : AppState) : string :=
  JS.or_else
    (r ← analysisResult s; d ← detectedSpecs r; d_philosophy d)
    "Standard Industry Design".

Definition handleSimulate : IO unit :=
  s <- snapshot ;;
  if negb (JS.truthy (originalImage s)) then ret tt
  else
    setIsGenerating true ;;
    setError None ;;
    setGeneratedImage None ;;
    setGeneratedPrompt None ;;
    finally
      (try_catch
         (let base64Data := base64Data_of s in
          let philosophy := philosophy_of s in
          prompt <- generateLutheriePrompt base64Data (specs s)
                      (Some philosophy) ;;
          setGeneratedPrompt (Some prompt) ;;
          newImage <- generateModifiedGuitarImage prompt ;;
          setGeneratedImage (Some newImage))
         (fun err => setError (Some simulation_failed_message)))
      (setIsGenerating false).

Definition interruption_notice : ChatMessage :=
  mkChatMessage model "Connection to Luthier Intelligence Interrupted.".

(** [newHistory[newHistory.length - 1] = m] on a copy of [prev]; on an
    empty array the assignment at index -1 adds no element. *)
Definition replace_last (m : ChatMessage) (prev : list ChatMessage)
  : list ChatMessage :=
  <[pred (length prev) := m]> prev.

(** The body of the [for await] loop, chunk after chunk, with the
    accumulator [fullResponse]; the iteration then ends or throws. *)
Fixpoint consume (cs : list GenerateContentResponse) (broken : option Error)
  (fullResponse : string) : IO unit :=
  match cs with
  | [] =>
      match broken with
      | Some e => throw e
      | None => ret tt
      end
  | c :: rest =>
      let text := JS.or_else (resp_text c) "" in
      let fullResponse := fullResponse +:+ text in
      setChatHistory (replace_last (mkChatMessage model fullResponse)) ;;
      consume rest broken fullResponse
  end.

Definition handleSendMessage : IO unit :=
  s <- snapshot ;;
  if JS.trim_is_empty (chatInput s) then ret tt
  else
    match chatSession s with
    | None => ret tt
    | Some session =>
        let userMsg := chatInput s in
        setChatInput "" ;;
        setChatHistory (fun prev => prev ++ [mkChatMessage user userMsg]) ;;
        setIsChatting true ;;
        finally
          (try_catch
             (resultStream <-
                perform (CallSendMessageStream session userMsg)
                  (fun w => chat_sendMessageStream w session userMsg) ;;
              setChatHistory (fun prev => prev ++ [mkChatMessage model ""]) ;;
              consume (chunks resultStream) (broken resultStream) "")
             (fun err =>
                setChatHistory (fun prev => prev ++ [interruption_notice])))
          (setIsChatting false)
    end.

(** The [disabled] attribute of the SEND button. *)
Definition send_disabled (s : AppState) : bool :=
  JS.trim_is_empty (chatInput s) || isChatting s.

(** ** What the world answers to each service *)

(** The outcome of [generateModifiedGuitarImage] on a reply. *)
Definition image_of_response (r : GenerateContentResponse)
  : Outcome string :=
  match first_candidate_parts r with
  | None => Throw "No image generated"
  | Some ps =>
      match first_inline_image ps with
      | Some uri => Return uri
      | None => Throw "Image data not found in response"
      end
  end.

(** The outcome of a service once the client exists. *)
Definition answered {A} (w : World) (req : GenerateContentRequest)
  (k : GenerateContentResponse -> Outcome A) : Outcome A :=
  match models_generateContent w req with
  | Return r => k r
  | Throw e => Throw e
  end.

Definition synthesized (w : World) (req : GenerateContentRequest)
  : Outcome string :=
  answered w req (fun r =>
    Return (JS.or_else (resp_text r) "Failed to generate prompt.")).

Definition rendered (w : World) (technicalPrompt : string)
  : Outcome string :=
  answered w (image_request technicalPrompt) image_of_response.

Definition analysed (w : World) (base64Image : option string)
  : Outcome (option AnalysisResult) :=
  answered w (analysis_request base64Image) (fun r =>
    if JS.truthy (resp_text r)
    then JSON_parse w (JS.interpolate (resp_text r))
    else Throw "No analysis received").

(** The outcome of [analyzeGuitarImage], credential included. *)
Definition analysis_outcome (w : World) (base64Image : option string)
  : Outcome (option AnalysisResult) :=
  if JS.truthy (API_KEY w) then analysed w base64Image
  else Throw missing_key.

(** The state in which [handleFileUpload] starts the analysis. *)
Definition upload_reset (file : File) (base64 : option string)
  (s : AppState) : AppState :=
  with_activeTab configurator
    (with_error None
       (with_analysisResult None
          (with_generatedPrompt None
             (with_generatedImage None
                (with_originalImage
                   (Some ("data:" +:+ file_type file +:+ ";base64," +:+
                          JS.interpolate base64))
                   (with_rawFile (Some file) s)))))).

(** The value of [fullResponse] after the given chunks. *)
Fixpoint accumulate (cs : list GenerateContentResponse)
  (fullResponse : string) : string :=
  match cs with
  | [] => fullResponse
  | c :: rest =>
      accumulate rest (fullResponse +:+ JS.or_else (resp_text c) "")
  end.

(** The transcript left by [handleSendMessage] for each answer of the
    session. *)
Definition transcript_after (prev : list ChatMessage) (userMsg : string)
  (answer : Outcome Stream) : list ChatMessage :=
  match answer with
  | Throw _ => prev ++ [mkChatMessage user userMsg; interruption_notice]
  | Return stream =>
      prev ++
      [mkChatMessage user userMsg;
       mkChatMessage model (accumulate (chunks stream) "")] ++
      match broken stream with
      | Some _ => [interruption_notice]
      | None => []
      end
  end.

(** A part that carries image data. *)
Definition carries_image (p : Part) : Prop :=
  exists (d : InlineData) (payload : string),
    inlineData p = Some d /\ data d = Some payload /\ payload <> "".

(** ** The prompt around its fourth requirement *)

(** The text of the user prompt before the philosophy instruction. *)
Definition prompt_before
  (targetSpecs : GuitarSpecs) (originalPhilosophy : string) : string :=
  let notes := JS.or_else (notes targetSpecs) "" in
  "
    Context: The user wants to modify the guitar shown in the attached image.
    
    Original Instrument Philosophy: " +:+
    originalPhilosophy +:+
    "
    
    Requested Modifications (Target Specs):
    - Body Material: " +:+
    BodyWood_value (bodyWood targetSpecs) +:+
    "
    - Fretboard: " +:+
    FretboardMaterial_value (fretboard targetSpecs) +:+
    "
    - Bridge System: " +:+
    BridgeSystem_value (bridge targetSpecs) +:+
    "
    - Pickup Config: " +:+
    PickupConfig_value (pickups targetSpecs) +:+
    "
    - Neck Profile: " +:+
    NeckProfile_value (neckProfile targetSpecs) +:+
    "
    - Additional Notes: " +:+
    notes +:+
    "

    Action: Generate an ultra-detailed technical visual description to be used as an image generation prompt (e.g. for Stable Diffusion or Imagen).
    
    Mandatory Requirements:
    1. LIGHTING & ANGLE: Maintain the ORIGINAL lighting, angle, and perspective of the reference image exactly.
    2. MATERIAL PHYSICS: Describe the specific wood grain and finish based on lutherie taxonomy (e.g., if Mahogany -> " +:+
    JS.dq +:+
    "porous reddish-brown grain with nitrocellulose fill" +:+
    JS.dq +:+
    "; if Ash -> " +:+
    JS.dq +:+
    "deep open pore grain" +:+
    JS.dq +:+
    ").
    3. MECHANICS: 
       - If Evertune is selected, describe it as " +:+
    JS.dq +:+
    "modern chrome Evertune bridge system with individual saddle modules and spring tensioners" +:+
    JS.dq +:+
    ".
       - If Floyd Rose, describe " +:+
    JS.dq +:+
    "double-locking tremolo system with fine tuners and locking nut" +:+
    JS.dq +:+
    ".
    4. PHILOSOPHY: ".

(** The text of the user prompt after the philosophy instruction. *)
Definition prompt_after : string :=
  "
    
    Output Format: 
    A single paragraph English prompt starting with " +:+
    JS.dq +:+
    "A photorealistic 8k close-up shot of a modified electric guitar..." +:+
    JS.dq +:+
    ". 
    Focus heavily on textures (wood pores, metal sheen, plastic aging).
  ".

(** ** The keyword policy in the words of the specification *)

Module Spec.

(** An upper-case ASCII letter and its lower-case form. *)
Definition case_pair (C c : ascii) : Prop :=
  (65 <= N_of_ascii C <= 90)%N /\ N_of_ascii c = (N_of_ascii C + 32)%N.

(** Two characters equal up to letter case. *)
Definition same_letter (c d : ascii) : Prop :=
  c = d \/ case_pair c d \/ case_pair d c.

(** Two strings equal up to letter case, character by character. *)
Inductive same_word : string -> string -> Prop :=
| same_empty : same_word "" ""
| same_cons c d s t :
    same_letter c d -> same_word s t ->
    same_word (String c s) (String d t).

(** [w] is a substring of [s], case-insensitively. *)
Definition occurs_ignoring_case (w s : string) : Prop :=
  exists pre mid post : string,
    s = pre +:+ mid +:+ post /\ same_word mid w.

(** The notes hold one of the trigger words, in any letter case. *)
Definition has_trigger (notes : string) : Prop :=
  exists w : string, In w trigger_words /\ occurs_ignoring_case w notes.

(** Words written in the letters a to z only. *)
Fixpoint lower_ascii (w : string) : bool :=
  match w with
  | EmptyString => true
  | String d r =>
      ((97 <=? N_of_ascii d) && (N_of_ascii d <=? 122))%N && lower_ascii r
  end.

End Spec.

(** ** The interruption rule in the words of the specification *)

(** The text accumulated so far is discarded and replaced by the
    interruption notice: after the user's message the transcript holds
    the notice and nothing else. *)
Definition partial_text_replaced (before after : list ChatMessage)
  (userMsg : string) : Prop :=
  after = before ++ [mkChatMessage user userMsg; interruption_notice].

(** ** The failed-analysis rule in the words of the specification *)

(** Prior state is left untouched: what the shell held of the earlier
    successful operations, it still holds. *)
Definition prior_state_untouched (before after : AppState) : Prop :=
  analysisResult after = analysisResult before /\
  generatedPrompt after = generatedPrompt before /\
  generatedImage after = generatedImage before.

(** ** Sample worlds and states *)

Definition sample_image : string := "data:image/png;base64,QUJD".

Definition sample_file : File := mkFile "image/png".

(** A world with a credential whose models answer as given; its chat
    breaks after one fragment. *)
Definition sample_world
  (answer : GenerateContentRequest -> Outcome GenerateContentResponse)
  : World :=
  mkWorld (Some "key") answer
    (fun _ _ =>
       Return (mkStream [mkResponse (Some "Map") None]
                 (Some "network error")))
    (fun _ => Throw "Unexpected token")
    (fun _ => Return sample_image).

Definition failing_service (req : GenerateContentRequest)
  : Outcome GenerateContentResponse :=
  Throw "503 Service Unavailable".

Definition silent_service (req : GenerateContentRequest)
  : Outcome GenerateContentResponse :=
  Return (mkResponse None None).

Definition picture_part : Part :=
  mkPart (Some (mkInlineData (Some "image/png") (Some "QUJD"))) None.

Definition picture_service (req : GenerateContentRequest)
  : Outcome GenerateContentResponse :=
  Return (mkResponse None
            (Some [mkCandidate (Some (mkContent (Some
               [mkPart None (Some "done"); picture_part])))])).

Definition talking_service (req : GenerateContentRequest)
  : Outcome GenerateContentResponse :=
  Return (mkResponse (Some "{}") None).

(** A world whose analysis reply parses to the given result. *)
Definition parsing_world (r : AnalysisResult) : World :=
  mkWorld (Some "key") talking_service
    (fun _ _ => Throw "offline")
    (fun _ => Return (Some r))
    (fun _ => Return sample_image).

(** The state once an image is loaded, nothing else touched. *)
Definition uploaded : AppState :=
  with_originalImage (Some sample_image) initial_state.

(** The advisory tab after mounting, a question typed in; the sample
    chat yields one fragment and breaks. *)
Definition question : string := "What gives the best attack?".

Definition asking : Machine :=
  run (setChatInput question) (sample_world silent_service)
    (run initChat (sample_world silent_service) (boot initial_state)).

(** A world in which every operation succeeds: the reply carries both a
    text and a picture, and the text parses to the given result. *)
Definition complete_service (req : GenerateContentRequest)
  : Outcome GenerateContentResponse :=
  Return (mkResponse (Some "{}")
            (Some [mkCandidate (Some (mkContent (Some [picture_part])))])).

Definition complete_world (r : AnalysisResult) : World :=
  mkWorld (Some "key") complete_service
    (fun _ _ => Throw "offline")
    (fun _ => Return (Some r))
    (fun _ => Return sample_image).

Definition earlier_result : AnalysisResult :=
  mkAnalysisResult
    (Some (mkPartialSpecs None None None None None None None None None
             (Some "Artesanal (Gibson)"))) "warm".

(** The shell after a successful upload and a successful generation: it
    holds an analysis result, a prompt and an image. *)
Definition holding_results : Machine :=
  run handleSimulate (complete_world earlier_result)
    (run (handleFileUpload (Some sample_file))
       (complete_world earlier_result) (boot initial_state)).

(** The same shell after one more upload, whose analysis fails. *)
Definition reuploaded : Machine :=
  run (handleFileUpload (Some sample_file)) (sample_world failing_service)
    holding_results.

(** ** More of App.tsx *)

(** The [onChange] handlers of the form: the [specs] captured by the
    closure, spread with one field replaced. *)
Definition onChangeBodyWood (v : BodyWood) : IO unit :=
  s <- snapshot ;;
  let specs := specs s in
  setSpecs (fun _ =>
    mkGuitarSpecs v (neckProfile specs) (fretboard specs) (bridge specs)
      (pickups specs) (scaleLength specs) (fretboardRadius specs)
      (notes specs) (construction specs) (philosophy specs)).

Definition onChangeFretboard (v : FretboardMaterial) : IO unit :=
  s <- snapshot ;;
  let specs := specs s in
  setSpecs (fun _ =>
    mkGuitarSpecs (bodyWood specs) (neckProfile specs) v (bridge specs)
      (pickups specs) (scaleLength specs) (fretboardRadius specs)
      (notes specs) (construction specs) (philosophy specs)).

Definition onChangeNeckProfile (v : NeckProfile) : IO unit :=
  s <- snapshot ;;
  let specs := specs s in
  setSpecs (fun _ =>
    mkGuitarSpecs (bodyWood specs) v (fretboard specs) (bridge specs)
      (pickups specs) (scaleLength specs) (fretboardRadius specs)
      (notes specs) (construction specs) (philosophy specs)).

Definition onChangeBridge (v : BridgeSystem) : IO unit :=
  s <- snapshot ;;
  let specs := specs s in
  setSpecs (fun _ =>
    mkGuitarSpecs (bodyWood specs) (neckProfile specs) (fretboard specs) v
      (pickups specs) (scaleLength specs) (fretboardRadius specs)
      (notes specs) (construction specs) (philosophy specs)).

Definition onChangePickups (v : PickupConfig) : IO unit :=
  s <- snapshot ;;
  let specs := specs s in
  setSpecs (fun _ =>
    mkGuitarSpecs (bodyWood specs) (neckProfile specs) (fretboard specs)
      (bridge specs) v (scaleLength specs) (fretboardRadius specs)
      (notes specs) (construction specs) (philosophy specs)).

Definition onChangeNotes (v : string) : IO unit :=
  s <- snapshot ;;
  let specs := specs s in
  setSpecs (fun _ =>
    mkGuitarSpecs (bodyWood specs) (neckProfile specs) (fretboard specs)
      (bridge specs) (pickups specs) (scaleLength specs)
      (fretboardRadius specs) (Some v) (construction specs)
      (philosophy specs)).

(** One edit of the form. *)
Inductive Edit :=
| EditBodyWood (v : BodyWood)
| EditFretboard (v : FretboardMaterial)
| EditNeckProfile (v : NeckProfile)
| EditBridge (v : BridgeSystem)
| EditPickups (v : PickupConfig)
| EditNotes (v : string).

Definition onChange (e : Edit) : IO unit :=
  match e with
  | EditBodyWood v => onChangeBodyWood v
  | EditFretboard v => onChangeFretboard v
  | EditNeckProfile v => onChangeNeckProfile v
  | EditBridge v => onChangeBridge v
  | EditPickups v => onChangePickups v
  | EditNotes v => onChangeNotes v
  end.

(** Events handled one after the other, each on the state left by the
    one before. *)
Fixpoint handle_all (events : list (IO unit)) (w : World) (m : Machine)
  : Machine :=
  match events with
  | [] => m
  | e :: rest => handle_all rest w (run e w m)
  end.

(** The edits put through [onChange], in order. *)
Definition edit_all (edits : list Edit) : World -> Machine -> Machine :=
  handle_all (map onChange edits).

(** [onKeyDown] of the chat input:
    [e.key === 'Enter' && handleSendMessage()]. *)
Definition onKeyDown (key : string) : IO unit :=
  if String.eqb key "Enter" then handleSendMessage else ret tt.

(** The [disabled] attribute of the GENERATE PROTOTYPE button. *)
Definition generate_disabled (s : AppState) : bool :=
  negb (JS.truthy (originalImage s)) || isGenerating s.

(** The hint under the fretboard select:
    [FRETBOARD_RESPONSE[specs.fretboard].split(',')[0]]; [None] stands
    for the failure of [split] on a missing entry. *)
Definition fretboard_hint (specs : GuitarSpecs) : option string :=
  d ← FRETBOARD_RESPONSE !! FretboardMaterial_value (fretboard specs);
  Some (fst (JS.cut "," d)).

(** Reading a property of [undefined]. *)
Definition TypeError : Error :=
  "TypeError: Cannot read properties of undefined".

(** The DETECTED SPECS panel: nothing without an analysis result, else
    the five labelled lines, each [field || "Unknown"], and the notes. *)
Definition detected_panel (s : AppState)
  : Outcome (option (list (string * string) * string)) :=
  match analysisResult s with
  | None => Return None
  | Some r =>
      match detectedSpecs r with
      | None => Throw TypeError
      | Some d =>
          Return (Some
            ([ ("PHILOSOPHY", JS.or_else (d_philosophy d) "Unknown");
               ("CONSTRUCTION", JS.or_else (d_construction d) "Unknown");
               ("WOOD", JS.or_else (d_bodyWood d) "Unknown");
               ("BRIDGE", JS.or_else (d_bridge d) "Unknown");
               ("PICKUPS", JS.or_else (d_pickups d) "Unknown") ],
             luthierNotes r))
      end
  end.

(** What the user and the page can do. *)
Inductive Event :=
| Mount
| Upload (file_opt : option File)
| Simulate
| Preset
| Change (e : Edit)
| TypeText (text : string)
| Send
| Key (key : string)
| SwitchTab (tab : Tab).

Definition handle (ev : Event) : IO unit :=
  match ev with
  | Mount => initChat
  | Upload file_opt => handleFileUpload file_opt
  | Simulate => handleSimulate
  | Preset => applyFrankensteinPreset
  | Change e => onChange e
  | TypeText text => setChatInput text
  | Send => handleSendMessage
  | Key key => onKeyDown key
  | SwitchTab tab => setActiveTab tab
  end.

(** ** Vocabulary of the further properties *)

(** The states the interface has shown so far, latest first. *)
Definition history (m : Machine) : list AppState := ui m :: seen m.

(** The texts of the chunks, joined in order. *)
Definition stream_text (cs : list GenerateContentResponse) : string :=
  fold_right (fun c rest => JS.or_else (resp_text c) "" +:+ rest) "" cs.

(** A string without comma. *)
Definition comma_free (s : string) : bool := negb (JS.includes s ",").

(** From [m] to [m'] the interface has shown only states that satisfy
    [P]. *)
Definition passes_through (P : AppState -> Prop) (m m' : Machine) : Prop :=
  exists trail : list AppState,
    history m' = trail ++ history m /\ Forall P trail.

(** Read from the latest state back, each state [s'] comes after the
    state [s] shown before it by a step [R s s']. *)
Fixpoint linked (R : AppState -> AppState -> Prop)
  (latest_first : list AppState) : Prop :=
  match latest_first with
  | [] => True
  | s' :: earlier =>
      match earlier with
      | [] => True
      | s :: _ => R s s'
      end /\ linked R earlier
  end.

(** From [m] to [m'] every state update of the interface is a step of
    [R]. *)
Definition steps_by (R : AppState -> AppState -> Prop) (m m' : Machine)
  : Prop :=
  exists trail : list AppState,
    history m' = trail ++ history m /\ linked R (trail ++ [ui m]).


(** The state [s] with the transcript [h] followed by the message that
    holds [full] and the texts of the first [k] chunks. *)
Definition streamed (h : list ChatMessage) (full : string)
  (cs : list GenerateContentResponse) (s : AppState) (k : nat) : AppState :=
  with_chatHistory
    (h ++ [mkChatMessage model (full +:+ stream_text (take k cs))]) s.

(** Started in a state that satisfies [I], the computation shows only
    states that satisfy [I], whatever the world answers. *)
Definition keeps {A} (I : AppState -> Prop) (c : IO A) : Prop :=
  forall (w : World) (m : Machine),
    I (ui m) -> passes_through I m (run c w m).

(** The data URI built from a part that carries image data. *)
Definition image_uri (d : InlineData) (payload : string) : string :=
  "data:" +:+ JS.interpolate (mimeType d) +:+ ";base64," +:+ payload.

(** A world without credential. *)
Definition keyless_world : World :=
  mkWorld None picture_service
    (fun _ _ => Return (mkStream [] None))
    (fun _ => Return (Some (mkAnalysisResult None "bright")))
    (fun _ => Return sample_image).

(** A world whose credential is the empty string. *)
Definition empty_key_world : World :=
  mkWorld (Some "") picture_service
    (fun _ _ => Throw "offline")
    (fun _ => Throw "Unexpected token")
    (fun _ => Return sample_image).

(** A world that answers every request with a fixed text and whose chat
    streams two fragments to completion. *)
Definition fluent_world : World :=
  mkWorld (Some "key") talking_service
    (fun _ _ =>
       Return (mkStream [mkResponse (Some "Map") None;
                         mkResponse None None;
                         mkResponse (Some "le.") None] None))
    (fun _ => Return (Some (mkAnalysisResult None "bright")))
    (fun _ => Return sample_image).

(** A world whose analysis reply is the text [null]. *)
Definition null_service (req : GenerateContentRequest)
  : Outcome GenerateContentResponse :=
  Return (mkResponse (Some "null") None).

Definition null_world : World :=
  mkWorld (Some "key") null_service
    (fun _ _ => Throw "offline")
    (fun text =>
       if String.eqb text "null" then Return None
       else Throw "Unexpected token")
    (fun _ => Return sample_image).

(** * Properties *)

(** ** The characteristic tables *)

Lemma described_insert (table : gmap string string) (k v key : string) :
  (k = key /\ v <> "") \/ (k <> key /\ described table key) ->
  described (<[k := v]> table) key.
Proof.
  intros [[-> Hv] | [Hne [s [Hs Hs']]]].
  - exists v. by rewrite lookup_insert_eq.
  - exists s. by rewrite lookup_insert_ne.
Qed.

Ltac table_entry :=
  repeat (apply described_insert;
          first [ left; split; [reflexivity | discriminate]
                | right; split; [discriminate | ] ]).

(** C7 - each of the four characteristic tables has, for every member of
    its enumeration, an entry that is a non-empty sentence. *)
Theorem characteristic_tables_total :
  (forall w : BodyWood, described WOOD_CHARACTERISTICS (BodyWood_value w)) /\
  (forall p : NeckProfile,
      described NECK_CHARACTERISTICS (NeckProfile_value p)) /\
  (forall b : BridgeSystem,
      described BRIDGE_MECHANICS (BridgeSystem_value b)) /\
  (forall f : FretboardMaterial,
      described FRETBOARD_RESPONSE (FretboardMaterial_value f)).
Proof.
  repeat split; intros []; table_entry.
Qed.

(** ** Strings *)

Lemma append_nil (b : string) : "" +:+ b = b.
Proof. reflexivity. Qed.

Lemma append_cons (x : ascii) (a b : string) :
  String x a +:+ b = String x (a +:+ b).
Proof. reflexivity. Qed.

Lemma append_assoc (a b c : string) : (a +:+ b) +:+ c = a +:+ b +:+ c.
Proof.
  induction a as [|x a IH]; [reflexivity|].
  rewrite !append_cons. now rewrite IH.
Qed.

Lemma startsWith_spec (s w : string) :
  JS.startsWith s w = true <-> exists post : string, s = w +:+ post.
Proof.
  revert s; induction w as [|d w IH]; intros s.
  - split; [intros _; now exists s | intros _; now destruct s].
  - destruct s as [|c s]; simpl.
    + split; [discriminate | intros [post H]; discriminate].
    + rewrite andb_true_iff, Ascii.eqb_eq, IH. split.
      * intros [-> [post ->]]. now exists post.
      * intros [post H]. rewrite append_cons in H. injection H as -> ->.
        split; [reflexivity | now exists post].
Qed.

Lemma includes_spec (s w : string) :
  JS.includes s w = true <->
  exists pre post : string, s = pre +:+ w +:+ post.
Proof.
  induction s as [|c s IH].
  - cbn [JS.includes]. rewrite orb_false_r, startsWith_spec. split.
    + intros [post H]. now exists "", post.
    + intros [[|x pre] [post H]]; [now exists post | discriminate].
  - cbn [JS.includes]. rewrite orb_true_iff, startsWith_spec, IH. split.
    + intros [[post H] | [pre [post H]]].
      * now exists "", post.
      * exists (String c pre), post. rewrite append_cons. now rewrite H.
    + intros [[|x pre] [post H]].
      * left. now exists post.
      * right. rewrite append_cons in H. injection H as _ ->.
        now exists pre, post.
Qed.

Lemma toLowerCase_app (a b : string) :
  JS.toLowerCase (a +:+ b) = JS.toLowerCase a +:+ JS.toLowerCase b.
Proof.
  induction a as [|x a IH]; [reflexivity|].
  rewrite append_cons. simpl. now rewrite IH.
Qed.

Lemma toLowerCase_split (s a b : string) :
  JS.toLowerCase s = a +:+ b ->
  exists s1 s2 : string,
    s = s1 +:+ s2 /\ JS.toLowerCase s1 = a /\ JS.toLowerCase s2 = b.
Proof.
  revert s; induction a as [|x a IH]; intros s H.
  - now exists "", s.
  - rewrite append_cons in H. destruct s as [|c s]; [discriminate|].
    simpl in H. injection H as Hc Hs.
    destruct (IH s Hs) as (s1 & s2 & -> & H1 & H2).
    exists (String c s1), s2. simpl. now rewrite Hc, H1.
Qed.

Lemma toLowerCase_char_letter (c d : ascii) :
  (97 <= N_of_ascii d <= 122)%N ->
  JS.toLowerCase_char c = d <-> Spec.same_letter c d.
Proof.
  intros Hd. unfold JS.toLowerCase_char, Spec.same_letter, Spec.case_pair.
  pose proof (N_ascii_bounded c) as Hc.
  destruct ((65 <=? N_of_ascii c) && (N_of_ascii c <=? 90)
            || (192 <=? N_of_ascii c) && (N_of_ascii c <=? 222)
               && negb (N_of_ascii c =? 215))%N eqn:E.
  - rewrite orb_true_iff, !andb_true_iff, !N.leb_le in E. split.
    + intros <-. rewrite N_ascii_embedding in Hd |- * by lia.
      right; left. lia.
    + intros [-> | [[H1 H2] | [H1 H2]]]; [lia | | lia].
      rewrite <- H2. apply ascii_N_embedding.
  - rewrite orb_false_iff, !andb_false_iff, !N.leb_gt in E. split.
    + now left.
    + intros [-> | [[H1 H2] | [H1 H2]]]; [reflexivity | lia | lia].
Qed.

Lemma toLowerCase_word (mid w : string) :
  Spec.lower_ascii w = true ->
  JS.toLowerCase mid = w <-> Spec.same_word mid w.
Proof.
  revert mid; induction w as [|d w IH]; intros mid Hw.
  - destruct mid; simpl; split; try discriminate; try constructor.
    inversion 1.
  - simpl in Hw. rewrite !andb_true_iff, !N.leb_le in Hw.
    destruct Hw as [Hd Hw]. destruct mid as [|c mid]; simpl.
    + split; [discriminate | inversion 1].
    + split.
      * intros H. injection H as Hc Hm. constructor.
        -- now apply toLowerCase_char_letter.
        -- now apply IH.
      * inversion 1; subst. f_equal.
        -- now apply toLowerCase_char_letter.
        -- now apply IH.
Qed.

Lemma includes_ignoring_case (s w : string) :
  Spec.lower_ascii w = true ->
  JS.includes (JS.toLowerCase s) w = true <-> Spec.occurs_ignoring_case w s.
Proof.
  intros Hw. rewrite includes_spec. unfold Spec.occurs_ignoring_case. split.
  - intros (pre & post & H).
    apply toLowerCase_split in H as (s1 & s2 & -> & H1 & H2).
    apply toLowerCase_split in H2 as (mid & s3 & -> & H2 & H3).
    exists s1, mid, s3. split; [reflexivity | now apply toLowerCase_word].
  - intros (pre & mid & post & -> & H).
    exists (JS.toLowerCase pre), (JS.toLowerCase post).
    rewrite !toLowerCase_app. f_equal. f_equal. now apply toLowerCase_word.
Qed.

Lemma isFrankenstein_iff (notes : string) :
  isFrankenstein notes = true <-> Spec.has_trigger notes.
Proof.
  unfold isFrankenstein, Spec.has_trigger, trigger_words.
  rewrite !orb_true_iff, !includes_ignoring_case by reflexivity. split.
  - intros [[H | H] | H]; eexists; (split; [|exact H]); simpl; auto.
  - intros (w & Hin & H). simpl in Hin.
    destruct Hin as [<- | [<- | [<- | []]]]; auto.
Qed.

(** ** The services, as functions of the world *)

Lemma getAiClient_eq (w : World) (m : Machine) :
  getAiClient w m =
  if JS.truthy (API_KEY w) then (Return tt, m) else (Throw missing_key, m).
Proof.
  unfold getAiClient, bind, ask, throw, ret.
  now destruct (JS.truthy (API_KEY w)).
Qed.

Lemma generateLutheriePrompt_eq b s p (w : World) (m : Machine) :
  generateLutheriePrompt b s (Some p) w m =
  if JS.truthy (API_KEY w) then
    (synthesized w (lutherie_request b s p),
     log_call (CallGenerateContent (lutherie_request b s p)) m)
  else (Throw missing_key, m).
Proof.
  unfold generateLutheriePrompt, bind. rewrite getAiClient_eq.
  destruct (JS.truthy (API_KEY w)); [|reflexivity].
  unfold try_catch, bind, perform, ret, throw, synthesized, answered.
  cbv zeta. now destruct (models_generateContent w _).
Qed.

Lemma generateModifiedGuitarImage_eq t (w : World) (m : Machine) :
  generateModifiedGuitarImage t w m =
  if JS.truthy (API_KEY w) then
    (rendered w t, log_call (CallGenerateContent (image_request t)) m)
  else (Throw missing_key, m).
Proof.
  unfold generateModifiedGuitarImage, bind. rewrite getAiClient_eq.
  destruct (JS.truthy (API_KEY w)); [|reflexivity].
  unfold try_catch, bind, perform, ret, throw, rendered, answered,
    image_of_response.
  cbv zeta. destruct (models_generateContent w _) as [r|e]; [|reflexivity].
  destruct (first_candidate_parts r) as [ps|]; [|reflexivity].
  now destruct (first_inline_image ps).
Qed.

Lemma analyzeGuitarImage_eq b (w : World) (m : Machine) :
  analyzeGuitarImage b w m =
  if JS.truthy (API_KEY w) then
    (analysed w b, log_call (CallGenerateContent (analysis_request b)) m)
  else (Throw missing_key, m).
Proof.
  unfold analyzeGuitarImage, bind. rewrite getAiClient_eq.
  destruct (JS.truthy (API_KEY w)); [|reflexivity].
  unfold try_catch, bind, perform, ret, throw, analysed, answered.
  cbv zeta. destruct (models_generateContent w _) as [r|e]; [|reflexivity].
  destruct (JS.truthy (resp_text r)); cbn [negb]; [|reflexivity].
  now destruct (JSON_parse w _).
Qed.

(** ** The prompt *)

Lemma userPrompt_sections s p :
  userPrompt_of s p =
  prompt_before s p +:+ philosophyInstruction_of s p +:+ prompt_after.
Proof.
  unfold userPrompt_of, prompt_before, prompt_after. cbv zeta.
  now rewrite !append_assoc.
Qed.

Lemma preserve_is_not_deviate p :
  preserve_instruction p <> deviate_instruction.
Proof.
  unfold preserve_instruction, deviate_instruction. intros H.
  rewrite append_cons in H. discriminate H.
Qed.

Lemma philosophyInstruction_deviate s p :
  philosophyInstruction_of s p = deviate_instruction <->
  isFrankenstein (JS.or_else (notes s) "") = true.
Proof.
  unfold philosophyInstruction_of. cbv zeta.
  destruct (isFrankenstein _); split; intros H;
    solve [reflexivity | discriminate H
          | now apply preserve_is_not_deviate in H].
Qed.

(** C1 - the instruction built by [generateLutheriePrompt] is the
    deviate-from-philosophy text exactly when the notes hold one of the
    trigger words as a case-insensitive substring (so whenever they hold
    the word hybrid in any letter case), and otherwise the
    preserve-philosophy text, which embeds the original philosophy; the
    instruction is the fourth requirement of the prompt sent to the
    synthesizer. *)
Theorem philosophy_instruction_policy
  (targetSpecs : GuitarSpecs) (originalPhilosophy : string)
  (base64Original : option string) (w : World) (m : Machine) :
  let notes := JS.or_else (notes targetSpecs) "" in
  let instruction := philosophyInstruction_of targetSpecs originalPhilosophy in
  (instruction = deviate_instruction <-> Spec.has_trigger notes) /\
  (Spec.occurs_ignoring_case "hybrid" notes ->
   instruction = deviate_instruction) /\
  (~ Spec.has_trigger notes ->
   instruction = preserve_instruction originalPhilosophy) /\
  (exists pre post : string,
     preserve_instruction originalPhilosophy =
     pre +:+ originalPhilosophy +:+ post) /\
  userPrompt_of targetSpecs originalPhilosophy =
    prompt_before targetSpecs originalPhilosophy +:+ instruction +:+
    prompt_after /\
  calls (run (generateLutheriePrompt base64Original targetSpecs
                (Some originalPhilosophy)) w m) =
    calls m ++
    (if JS.truthy (API_KEY w)
     then [CallGenerateContent
             (lutherie_request base64Original targetSpecs
                originalPhilosophy)]
     else []).
Proof.
  intros notes instruction.
  assert (Hiff : instruction = deviate_instruction <-> Spec.has_trigger notes).
  { unfold instruction. rewrite philosophyInstruction_deviate.
    apply isFrankenstein_iff. }
  split; [exact Hiff|]. split; [|split; [|split; [|split]]].
  - intros H. apply Hiff. exists "hybrid". split; [|exact H].
    unfold trigger_words. simpl. auto.
  - intros H. unfold instruction, philosophyInstruction_of. cbv zeta.
    fold notes. destruct (isFrankenstein notes) eqn:E; [|reflexivity].
    exfalso. apply H. now apply isFrankenstein_iff.
  - eexists _, _. reflexivity.
  - apply userPrompt_sections.
  - unfold run. rewrite generateLutheriePrompt_eq.
    destruct (JS.truthy (API_KEY w)); [reflexivity|].
    simpl. now rewrite app_nil_r.
Qed.

Lemma philosophy_instruction_policy_witness :
  philosophyInstruction_of
    (mkGuitarSpecs ALDER MODERN_C ROSEWOOD TUNE_O_MATIC HH "25.5" "9.5"
       (Some "Gold hardware, HyBrid wiring") None None)
    "Modular (Fender)" = deviate_instruction.
Proof.
  apply (philosophy_instruction_policy _ "Modular (Fender)" None
           (sample_world silent_service) (boot initial_state)).
  apply includes_ignoring_case; reflexivity.
Defined.

(** ** Running the handlers *)

Ltac exec :=
  cbv beta iota zeta delta
      [run result bind ret throw try_catch finally ask snapshot update
       commit perform log_call
       setActiveTab setOriginalImage setRawFile setIsAnalyzing
       setIsGenerating setAnalysisResult setGeneratedPrompt
       setGeneratedImage setError setChatSession setChatHistory
       setChatInput setIsChatting setSpecs];
  cbn [fst snd negb ui seen calls].

(** Record updates laid out field by field. *)
Ltac fields :=
  cbn [with_activeTab with_originalImage with_rawFile with_isAnalyzing
       with_isGenerating with_analysisResult with_generatedPrompt
       with_generatedImage with_error with_chatSession with_chatHistory
       with_chatInput with_isChatting with_specs
       activeTab originalImage rawFile isAnalyzing isGenerating
       analysisResult generatedPrompt generatedImage error chatSession
       chatHistory chatInput isChatting specs].

Lemma handleSimulate_idle (w : World) (m : Machine) :
  JS.truthy (originalImage (ui m)) = false ->
  handleSimulate w m = (Return tt, m).
Proof.
  intros Hi. unfold handleSimulate. exec. now rewrite Hi.
Qed.

Lemma handleSimulate_no_key (w : World) (m : Machine) :
  JS.truthy (originalImage (ui m)) = true ->
  JS.truthy (API_KEY w) = false ->
  ui (run handleSimulate w m) =
    with_isGenerating false
      (with_error (Some simulation_failed_message)
         (with_generatedPrompt None
            (with_generatedImage None
               (with_error None (with_isGenerating true (ui m)))))) /\
  calls (run handleSimulate w m) = calls m.
Proof.
  intros Hi Hk. unfold handleSimulate. exec. rewrite Hi. exec.
  rewrite generateLutheriePrompt_eq, Hk. exec. now split.
Qed.

Lemma handleSimulate_ready (w : World) (m : Machine) :
  JS.truthy (originalImage (ui m)) = true ->
  JS.truthy (API_KEY w) = true ->
  let s := ui m in
  let req := lutherie_request (base64Data_of s) (specs s) (philosophy_of s) in
  let busy :=
    with_generatedPrompt None
      (with_generatedImage None
         (with_error None (with_isGenerating true s))) in
  match synthesized w req with
  | Throw _ =>
      ui (run handleSimulate w m) =
        with_isGenerating false
          (with_error (Some simulation_failed_message) busy) /\
      calls (run handleSimulate w m) = calls m ++ [CallGenerateContent req]
  | Return prompt =>
      calls (run handleSimulate w m) =
        (calls m ++ [CallGenerateContent req]) ++
        [CallGenerateContent (image_request prompt)] /\
      ui (run handleSimulate w m) =
        match rendered w prompt with
        | Return uri =>
            with_isGenerating false
              (with_generatedImage (Some uri)
                 (with_generatedPrompt (Some prompt) busy))
        | Throw _ =>
            with_isGenerating false
              (with_error (Some simulation_failed_message)
                 (with_generatedPrompt (Some prompt) busy))
        end
  end.
Proof.
  intros Hi Hk s req busy. unfold handleSimulate. exec. rewrite Hi. exec.
  rewrite generateLutheriePrompt_eq, Hk. fold s req.
  destruct (synthesized w req) as [prompt|e]; exec; [|now split].
  rewrite generateModifiedGuitarImage_eq, Hk.
  destruct (rendered w prompt) as [uri|e]; exec; now split.
Qed.

(** ** Presets *)

(** C2 - whatever the prior specification, the Frankenstein preset sets
    the bridge to Floyd Rose, the pickups to HSS, the body wood to swamp
    ash and the notes to the hybrid-mod text, keeps the six other fields,
    and does so in a single state update: the only state added to those
    the interface went through is the prior one. *)
Theorem frankenstein_preset_atomic (w : World) (m : Machine) :
  let m' := run applyFrankensteinPreset w m in
  let prev := specs (ui m) in
  let next := specs (ui m') in
  (bridge next = FLOYD_ROSE /\
   pickups next = HSS /\
   bodyWood next = ASH /\
   notes next = Some frankenstein_notes /\
   JS.includes frankenstein_notes "'Frankenstein' mod" = true /\
   JS.includes frankenstein_notes "hybrid aesthetic" = true) /\
  (neckProfile next = neckProfile prev /\
   fretboard next = fretboard prev /\
   scaleLength next = scaleLength prev /\
   fretboardRadius next = fretboardRadius prev /\
   construction next = construction prev /\
   philosophy next = philosophy prev) /\
  (result applyFrankensteinPreset w m = Return tt /\
   ui m' = with_specs (frankenstein_preset prev) (ui m) /\
   seen m' = ui m :: seen m /\
   calls m' = calls m).
Proof.
  unfold applyFrankensteinPreset. exec.
  repeat split; vm_compute; reflexivity.
Qed.

Lemma frankenstein_notes_trigger : isFrankenstein frankenstein_notes = true.
Proof. vm_compute. reflexivity. Qed.

(** C9 - the notes installed by the preset hold a trigger word, so the
    instruction built from the preset state is the deviate-from-philosophy
    one, never the preserve-philosophy one, and a generation started right
    after the preset sends the synthesizer a prompt carrying it. *)
Theorem preset_forces_deviation
  (w1 w2 : World) (m : Machine) (originalPhilosophy : string) :
  let m1 := run applyFrankensteinPreset w1 m in
  let m2 := run handleSimulate w2 m1 in
  let s := frankenstein_preset (specs (ui m)) in
  let req := lutherie_request (base64Data_of (ui m)) s (philosophy_of (ui m)) in
  Spec.has_trigger (JS.or_else (notes (specs (ui m1))) "") /\
  philosophyInstruction_of s originalPhilosophy = deviate_instruction /\
  philosophyInstruction_of s originalPhilosophy <>
    preserve_instruction originalPhilosophy /\
  userPrompt_of s originalPhilosophy =
    prompt_before s originalPhilosophy +:+ deviate_instruction +:+
    prompt_after /\
  (JS.truthy (originalImage (ui m)) = true ->
   JS.truthy (API_KEY w2) = true ->
   exists rest : list Call,
     calls m2 = calls m ++ CallGenerateContent req :: rest).
Proof.
  intros m1 m2 s req.
  assert (Hd : forall p, philosophyInstruction_of s p = deviate_instruction).
  { intros p. apply philosophyInstruction_deviate.
    exact frankenstein_notes_trigger. }
  split; [|split; [|split; [|split]]].
  - apply isFrankenstein_iff. exact frankenstein_notes_trigger.
  - apply Hd.
  - rewrite Hd. intros H. symmetry in H.
    now apply preserve_is_not_deviate in H.
  - rewrite userPrompt_sections. now rewrite Hd.
  - intros Hi Hk.
    pose proof (handleSimulate_ready w2 m1 Hi Hk) as H. cbv zeta in H.
    change (lutherie_request _ _ _) with req in H. fold m2 in H.
    change (calls m1) with (calls m) in H.
    destruct (synthesized w2 req) as [prompt|e].
    + destruct H as [H _]. rewrite H, <- app_assoc. eexists. reflexivity.
    + destruct H as [_ H]. rewrite H. eexists. reflexivity.
Qed.

Lemma preset_forces_deviation_witness :
  exists rest : list Call,
    calls (run handleSimulate (sample_world silent_service)
             (run applyFrankensteinPreset (sample_world silent_service)
                (boot uploaded))) =
    calls (boot uploaded) ++
    CallGenerateContent
      (lutherie_request (base64Data_of uploaded)
         (frankenstein_preset default_specs) (philosophy_of uploaded))
    :: rest.
Proof.
  apply (preset_forces_deviation (sample_world silent_service)
           (sample_world silent_service) (boot uploaded) "");
    reflexivity.
Defined.

(** ** Image synthesis *)

Lemma truthy_iff (o : option string) :
  JS.truthy o = true <-> exists s : string, o = Some s /\ s <> "".
Proof.
  destruct o as [[|c s]|]; simpl; split; try discriminate.
  - intros (s & H & Hs). injection H as <-. now destruct Hs.
  - intros _. eexists. split; [reflexivity | discriminate].
  - intros (s' & H & Hs). reflexivity.
  - intros (s & H & _). discriminate.
Qed.

Lemma first_inline_image_none (ps : list Part) :
  first_inline_image ps = None <->
  forall p : Part, In p ps -> ~ carries_image p.
Proof.
  induction ps as [|part rest IH]; simpl.
  - split; [intros _ p [] | reflexivity].
  - destruct (inlineData part) as [d|] eqn:Ed.
    + destruct (JS.truthy (data d)) eqn:Et.
      * split; [discriminate|]. intros H. exfalso. apply (H part); [now left|].
        apply truthy_iff in Et as (payload & Hp & Hne).
        now exists d, payload.
      * rewrite IH. split.
        -- intros H p [<- | Hin]; [|now apply H].
           intros (d' & payload & Hd & Hp & Hne).
           rewrite Ed in Hd. injection Hd as <-.
           rewrite Hp in Et. now destruct payload.
        -- intros H p Hin. apply H. now right.
    + rewrite IH. split.
      * intros H p [<- | Hin]; [|now apply H].
        intros (d' & payload & Hd & _). rewrite Ed in Hd. discriminate.
      * intros H p Hin. apply H. now right.
Qed.

Lemma first_inline_image_some (ps : list Part) (uri : string) :
  first_inline_image ps = Some uri ->
  exists (p : Part) (d : InlineData) (payload : string),
    In p ps /\ inlineData p = Some d /\ data d = Some payload /\
    payload <> "" /\
    uri = "data:" +:+ JS.interpolate (mimeType d) +:+ ";base64," +:+ payload.
Proof.
  induction ps as [|part rest IH]; simpl; [discriminate|].
  intros H.
  assert (Hrest : first_inline_image rest = Some uri ->
          exists (p : Part) (d : InlineData) (payload : string),
            (part = p \/ In p rest) /\ inlineData p = Some d /\
            data d = Some payload /\ payload <> "" /\
            uri = "data:" +:+ JS.interpolate (mimeType d) +:+ ";base64," +:+
                  payload).
  { intros H'. destruct (IH H') as (p & d & payload & Hin & Hrest).
    exists p, d, payload. split; [now right | exact Hrest]. }
  destruct (inlineData part) as [d|] eqn:Ed; [|now apply Hrest].
  destruct (JS.truthy (data d)) eqn:Et; [|now apply Hrest].
  apply truthy_iff in Et as (payload & Hp & Hne).
  exists part, d, payload. injection H as <-. rewrite Hp.
  repeat split; auto.
Qed.

(** C5 - [generateModifiedGuitarImage] raises an error whenever the reply
    of the render call carries no inline image data, and whenever it
    returns, the result is the data URI made of the MIME type and the
    base64 payload of a part of the reply; with a credential and a reply
    that carries image data in its first candidate it does return. *)
Theorem image_data_required
  (technicalPrompt : string) (w : World) (m : Machine) :
  let out := result (generateModifiedGuitarImage technicalPrompt) w m in
  let reply := models_generateContent w (image_request technicalPrompt) in
  (forall response : GenerateContentResponse,
     reply = Return response ->
     (forall (ps : list Part) (p : Part),
        first_candidate_parts response = Some ps -> In p ps ->
        ~ carries_image p) ->
     exists e : Error, out = Throw e) /\
  (forall uri : string,
     out = Return uri ->
     exists (response : GenerateContentResponse) (ps : list Part)
            (p : Part) (d : InlineData) (payload : string),
       reply = Return response /\
       first_candidate_parts response = Some ps /\ In p ps /\
       inlineData p = Some d /\ data d = Some payload /\ payload <> "" /\
       uri = "data:" +:+ JS.interpolate (mimeType d) +:+ ";base64," +:+
             payload) /\
  (forall (response : GenerateContentResponse) (ps : list Part) (p : Part),
     JS.truthy (API_KEY w) = true ->
     reply = Return response ->
     first_candidate_parts response = Some ps -> In p ps ->
     carries_image p ->
     exists uri : string, out = Return uri).
Proof.
  intros out reply. unfold out, result.
  rewrite generateModifiedGuitarImage_eq.
  unfold rendered, answered, image_of_response. fold reply.
  split; [|split].
  - intros response Hr Hno.
    destruct (JS.truthy (API_KEY w)); [|now eexists].
    cbn [fst]. rewrite Hr.
    destruct (first_candidate_parts response) as [ps|]; [|now eexists].
    destruct (first_inline_image ps) as [uri|] eqn:E; [|now eexists].
    exfalso. apply first_inline_image_some in E
      as (p & d & payload & Hin & Hd & Hp & Hne & _).
    apply (Hno ps p eq_refl Hin). now exists d, payload.
  - intros uri H.
    destruct (JS.truthy (API_KEY w)); [|discriminate H].
    cbn [fst] in H. destruct reply as [response|e]; [|discriminate H].
    destruct (first_candidate_parts response) as [ps|] eqn:Eps;
      [|discriminate H].
    destruct (first_inline_image ps) as [uri'|] eqn:E; [|discriminate H].
    injection H as ->.
    apply first_inline_image_some in E
      as (p & d & payload & Hin & Hd & Hp & Hne & Hu).
    exists response, ps, p, d, payload. repeat split; assumption.
  - intros response ps p Hk Hr Hps Hin Hc. rewrite Hk. cbn [fst].
    rewrite Hr, Hps.
    destruct (first_inline_image ps) as [uri|] eqn:E; [now eexists|].
    exfalso. rewrite first_inline_image_none in E. now apply (E p).
Qed.

Lemma image_data_required_witness :
  exists uri : string,
    result (generateModifiedGuitarImage "a guitar")
      (sample_world picture_service) (boot uploaded) = Return uri.
Proof.
  refine (proj2 (proj2 (image_data_required "a guitar"
                          (sample_world picture_service) (boot uploaded)))
            _ _ picture_part eq_refl eq_refl eq_refl _ _).
  - right. now left.
  - exists (mkInlineData (Some "image/png") (Some "QUJD")), "QUJD".
    repeat split. discriminate.
Defined.

(** ** The generation pipeline *)

(** C6 - when prompt synthesis fails, the pipeline stops there: the shell
    shows the generic failure message, keeps neither a prompt nor an
    image, clears its busy flag, and has called nothing but the
    synthesizer (not even that without a credential), so image synthesis
    is never invoked. *)
Theorem synthesis_failure_aborts (w : World) (m : Machine) (e : Error) :
  let s := ui m in
  let req := lutherie_request (base64Data_of s) (specs s) (philosophy_of s) in
  JS.truthy (originalImage s) = true ->
  result (generateLutheriePrompt (base64Data_of s) (specs s)
            (Some (philosophy_of s))) w m = Throw e ->
  let m' := run handleSimulate w m in
  (error (ui m') = Some simulation_failed_message /\
   generatedPrompt (ui m') = None /\
   generatedImage (ui m') = None /\
   isGenerating (ui m') = false) /\
  (if JS.truthy (API_KEY w)
   then models_generateContent w req = Throw e
   else e = missing_key) /\
  calls m' =
    calls m ++
    (if JS.truthy (API_KEY w) then [CallGenerateContent req] else []) /\
  (forall technicalPrompt : string,
     In (CallGenerateContent (image_request technicalPrompt)) (calls m') ->
     In (CallGenerateContent (image_request technicalPrompt)) (calls m)).
Proof.
  intros s req Hi He m'. unfold result in He.
  rewrite generateLutheriePrompt_eq in He. fold req in He.
  assert (Hp : if JS.truthy (API_KEY w)
               then models_generateContent w req = Throw e
               else e = missing_key).
  { destruct (JS.truthy (API_KEY w)); cbn [fst] in He.
    - unfold synthesized, answered in He.
      destruct (models_generateContent w req); [discriminate He|].
      now injection He as ->.
    - now injection He as ->. }
  assert (Hc : calls m' =
    calls m ++
    (if JS.truthy (API_KEY w) then [CallGenerateContent req] else [])
    /\ ui m' =
       with_isGenerating false
         (with_error (Some simulation_failed_message)
            (with_generatedPrompt None
               (with_generatedImage None
                  (with_error None (with_isGenerating true s)))))).
  { destruct (JS.truthy (API_KEY w)) eqn:Hk.
    - pose proof (handleSimulate_ready w m Hi Hk) as H. cbv zeta in H.
      fold s req m' in H. cbn [fst] in He. rewrite He in H.
      destruct H as [H1 H2]. now split.
    - destruct (handleSimulate_no_key w m Hi Hk) as [H1 H2].
      fold m' in H1, H2. rewrite H1, H2, app_nil_r. now split. }
  destruct Hc as [Hc Hu]. split; [|split; [exact Hp|split; [exact Hc|]]].
  - rewrite Hu. now repeat split.
  - intros t Hin. rewrite Hc in Hin. apply in_app_or in Hin as [Hin|Hin];
      [exact Hin|].
    destruct (JS.truthy (API_KEY w)); [|destruct Hin].
    destruct Hin as [Hin|[]]. discriminate Hin.
Qed.

Lemma synthesis_failure_aborts_witness :
  error (ui (run handleSimulate (sample_world failing_service)
               (boot uploaded))) =
    Some simulation_failed_message /\
  calls (run handleSimulate (sample_world failing_service) (boot uploaded)) =
    [CallGenerateContent
       (lutherie_request (base64Data_of uploaded) (specs uploaded)
          (philosophy_of uploaded))].
Proof.
  pose proof (synthesis_failure_aborts (sample_world failing_service)
                (boot uploaded) "503 Service Unavailable"
                eq_refl eq_refl) as H.
  cbv zeta in H. destruct H as ([H _] & _ & H' & _).
  split; [exact H | exact H'].
Defined.

(** C10 - a successful synthesis reply whose text is empty or absent does
    not make [generateLutheriePrompt] fail: it returns the literal, non
    empty text, which the pipeline stores as the generated prompt and
    sends to image synthesis. *)
Theorem empty_synthesis_text_is_forwarded
  (w : World) (m : Machine) (response : GenerateContentResponse) :
  let s := ui m in
  let req := lutherie_request (base64Data_of s) (specs s) (philosophy_of s) in
  JS.truthy (originalImage s) = true ->
  JS.truthy (API_KEY w) = true ->
  models_generateContent w req = Return response ->
  JS.truthy (resp_text response) = false ->
  let m' := run handleSimulate w m in
  result (generateLutheriePrompt (base64Data_of s) (specs s)
            (Some (philosophy_of s))) w m =
    Return "Failed to generate prompt." /\
  "Failed to generate prompt." <> "" /\
  calls m' =
    (calls m ++ [CallGenerateContent req]) ++
    [CallGenerateContent (image_request "Failed to generate prompt.")] /\
  generatedPrompt (ui m') = Some "Failed to generate prompt.".
Proof.
  intros s req Hi Hk Hr Ht m'.
  assert (Hs : synthesized w req = Return "Failed to generate prompt.").
  { unfold synthesized, answered. rewrite Hr. f_equal.
    destruct (resp_text response) as [[|c t]|]; [reflexivity | | reflexivity].
    discriminate Ht. }
  split; [|split; [discriminate|]].
  - unfold result. rewrite generateLutheriePrompt_eq, Hk. exact Hs.
  - pose proof (handleSimulate_ready w m Hi Hk) as H. cbv zeta in H.
    fold s req m' in H. rewrite Hs in H. destruct H as [H1 H2].
    split; [exact H1|]. rewrite H2.
    now destruct (rendered w "Failed to generate prompt.").
Qed.

Lemma empty_synthesis_text_is_forwarded_witness :
  calls (run handleSimulate (sample_world silent_service) (boot uploaded)) =
    [CallGenerateContent
       (lutherie_request (base64Data_of uploaded) (specs uploaded)
          (philosophy_of uploaded));
     CallGenerateContent (image_request "Failed to generate prompt.")].
Proof.
  pose proof (empty_synthesis_text_is_forwarded
                (sample_world silent_service) (boot uploaded)
                (mkResponse None None) eq_refl eq_refl eq_refl eq_refl) as H.
  cbv zeta in H. destruct H as (_ & _ & H & _). exact H.
Defined.

(** ** Upload and analysis *)

Lemma performAnalysis_run (b : option string) (w : World) (m : Machine) :
  let m' := run (performAnalysis b) w m in
  result (performAnalysis b) w m = Return tt /\
  ui m' =
    match analysis_outcome w b with
    | Return r =>
        with_isAnalyzing false
          (with_analysisResult r (with_isAnalyzing true (ui m)))
    | Throw _ =>
        with_isAnalyzing false
          (with_error (Some analysis_failed_message)
             (with_isAnalyzing true (ui m)))
    end /\
  calls m' =
    calls m ++
    (if JS.truthy (API_KEY w)
     then [CallGenerateContent (analysis_request b)] else []).
Proof.
  unfold performAnalysis, analysis_outcome. exec.
  rewrite analyzeGuitarImage_eq.
  destruct (JS.truthy (API_KEY w)).
  - destruct (analysed w b); exec; now repeat split.
  - exec. rewrite app_nil_r. now repeat split.
Qed.

Lemma handleFileUpload_run (file : File) (url : string)
  (w : World) (m : Machine) :
  FileReader_readAsDataURL w file = Return url ->
  let b := JS.split_at_1 "," url in
  let m' := run (handleFileUpload (Some file)) w m in
  result (handleFileUpload (Some file)) w m = Return tt /\
  ui m' =
    match analysis_outcome w b with
    | Return r =>
        with_isAnalyzing false
          (with_analysisResult r
             (with_isAnalyzing true (upload_reset file b (ui m))))
    | Throw _ =>
        with_isAnalyzing false
          (with_error (Some analysis_failed_message)
             (with_isAnalyzing true (upload_reset file b (ui m))))
    end /\
  calls m' =
    calls m ++
    (if JS.truthy (API_KEY w)
     then [CallGenerateContent (analysis_request b)] else []).
Proof.
  intros Hf b. unfold handleFileUpload. exec.
  unfold fileToGenerativePart. rewrite Hf. fold b. exec.
  match goal with
  | |- context [performAnalysis b w ?m0] =>
      pose proof (performAnalysis_run b w m0) as H
  end.
  cbv zeta in H. unfold run, result in H.
  destruct (performAnalysis b w _) as [o m1]. cbn [fst snd] in *.
  destruct H as (-> & Hu & Hc). cbn [fst snd]. now repeat split.
Qed.

(** C4, amended - a failing analysis call changes nothing but the error
    message and the busy flag, so it overwrites no analysis result in
    part; but the upload that makes the call has cleared the analysis
    result, the prompt and the image before: after an upload whose
    analysis fails the shell has not crashed, shows the error and holds
    none of the three, whatever it held; and a later upload whose
    analysis succeeds holds exactly what the analysis returned. *)
Theorem failed_analysis_leaves_no_partial_result
  (w w' : World) (m : Machine) (file file' : File) (url url' : string)
  (e : Error) (r : option AnalysisResult) :
  FileReader_readAsDataURL w file = Return url ->
  analysis_outcome w (JS.split_at_1 "," url) = Throw e ->
  FileReader_readAsDataURL w' file' = Return url' ->
  analysis_outcome w' (JS.split_at_1 "," url') = Return r ->
  let b := JS.split_at_1 "," url in
  let m0 := run (performAnalysis b) w m in
  let m1 := run (handleFileUpload (Some file)) w m in
  let m2 := run (handleFileUpload (Some file')) w' m1 in
  (ui m0 =
     with_isAnalyzing false
       (with_error (Some analysis_failed_message) (ui m)) /\
   analysisResult (ui m0) = analysisResult (ui m) /\
   error (ui m0) = Some analysis_failed_message) /\
  (result (handleFileUpload (Some file)) w m = Return tt /\
   analysisResult (ui m1) = None /\
   generatedPrompt (ui m1) = None /\
   generatedImage (ui m1) = None /\
   error (ui m1) = Some analysis_failed_message /\
   isAnalyzing (ui m1) = false) /\
  (analysisResult (ui m2) = r /\
   error (ui m2) = None /\
   isAnalyzing (ui m2) = false).
Proof.
  intros Hf He Hf' Hr b m0 m1 m2.
  destruct (performAnalysis_run b w m) as (_ & H0 & _).
  destruct (handleFileUpload_run file url w m Hf) as (R1 & H1 & _).
  destruct (handleFileUpload_run file' url' w' m1 Hf') as (_ & H2 & _).
  cbv zeta in H0, H1, H2. fold b in H1. fold m0 in H0. fold m1 in H1, H2.
  fold m2 in H2. unfold b in H0, H1. rewrite He in H0, H1. rewrite Hr in H2.
  rewrite H0, H1, H2. now repeat split.
Qed.

Lemma failed_analysis_leaves_no_partial_result_witness :
  analysisResult (ui reuploaded) = None /\
  generatedPrompt (ui reuploaded) = None /\
  generatedImage (ui reuploaded) = None /\
  error (ui reuploaded) = Some analysis_failed_message.
Proof.
  pose proof (failed_analysis_leaves_no_partial_result
                (sample_world failing_service)
                (parsing_world (mkAnalysisResult None "bright"))
                holding_results sample_file sample_file
                sample_image sample_image "503 Service Unavailable"
                (Some (mkAnalysisResult None "bright"))
                eq_refl eq_refl eq_refl eq_refl) as H.
  cbv zeta in H.
  destruct H as (_ & (_ & H1 & H2 & H3 & H4 & _) & _).
  repeat split; assumption.
Defined.

(** C4, as stated - the shell holds an analysis result, a prompt and an
    image; one more upload, whose analysis fails, shows the error and
    leaves none of the three: prior state is not left untouched. *)
Lemma failed_upload_clears_earlier_results :
  ~ prior_state_untouched (ui holding_results) (ui reuploaded) /\
  (analysisResult (ui holding_results) = Some earlier_result /\
   analysisResult (ui reuploaded) = None) /\
  (generatedPrompt (ui holding_results) = Some "{}" /\
   generatedPrompt (ui reuploaded) = None) /\
  (generatedImage (ui holding_results) = Some sample_image /\
   generatedImage (ui reuploaded) = None) /\
  error (ui reuploaded) = Some analysis_failed_message.
Proof.
  split; [|repeat split; reflexivity].
  intros (H & _). vm_compute in H. discriminate H.
Qed.

(** C8 - the record starts with alder, Modern C, rosewood, Tune-o-matic,
    dual humbuckers, a 24.75 inch scale and a 12 inch radius, and with
    notes holding no trigger word; when the analysis of the upload reports
    a philosophy, Artesanal (Gibson) or any other, and the specs are left
    alone, the generation sends the synthesizer a request built from that
    philosophy and the default record, with the preserve-philosophy
    instruction. *)
Theorem default_specs_preserve_philosophy
  (w1 w2 : World) (file : File) (url : string)
  (r : AnalysisResult) (d : PartialSpecs) (p : string) :
  FileReader_readAsDataURL w1 file = Return url ->
  analysis_outcome w1 (JS.split_at_1 "," url) = Return (Some r) ->
  detectedSpecs r = Some d ->
  d_philosophy d = Some p ->
  p <> "" ->
  JS.truthy (API_KEY w2) = true ->
  let m1 := run (handleFileUpload (Some file)) w1 (boot initial_state) in
  let m2 := run handleSimulate w2 m1 in
  let s := specs initial_state in
  (bodyWood s = ALDER /\ neckProfile s = MODERN_C /\
   fretboard s = ROSEWOOD /\ bridge s = TUNE_O_MATIC /\ pickups s = HH /\
   scaleLength s = "24.75" +:+ JS.dq /\
   fretboardRadius s = "12" +:+ JS.dq /\
   notes s = Some "") /\
  ~ Spec.has_trigger (JS.or_else (notes s) "") /\
  specs (ui m1) = s /\
  (exists (b : option string) (rest : list Call),
     calls m2 =
     calls m1 ++ CallGenerateContent (lutherie_request b s p) :: rest) /\
  philosophyInstruction_of s p = preserve_instruction p /\
  userPrompt_of s p =
    prompt_before s p +:+ preserve_instruction p +:+ prompt_after.
Proof.
  intros Hf Ha Hd Hp Hne Hk m1 m2 s.
  destruct (handleFileUpload_run file url w1 (boot initial_state) Hf)
    as (_ & H1 & _).
  cbv zeta in H1. fold m1 in H1. rewrite Ha in H1.
  assert (Hi : JS.truthy (originalImage (ui m1)) = true)
    by (rewrite H1; reflexivity).
  assert (Hph : philosophy_of (ui m1) = p).
  { rewrite H1. unfold philosophy_of.
    cbn [analysisResult with_isAnalyzing with_analysisResult mbind
         option_bind].
    rewrite Hd. cbn [mbind option_bind]. rewrite Hp.
    destruct p; [now destruct Hne | reflexivity]. }
  assert (Hs : specs (ui m1) = s) by (rewrite H1; reflexivity).
  split; [now repeat split|]. split; [|split; [exact Hs|split; [|split]]].
  - intros H. apply isFrankenstein_iff in H. discriminate H.
  - pose proof (handleSimulate_ready w2 m1 Hi Hk) as H. cbv zeta in H.
    fold m2 in H. rewrite Hph, Hs in H. exists (base64Data_of (ui m1)).
    destruct (synthesized w2 _) as [prompt|e].
    + destruct H as [H _]. rewrite H, <- app_assoc. eexists. reflexivity.
    + destruct H as [_ H]. rewrite H. eexists. reflexivity.
  - reflexivity.
  - now rewrite userPrompt_sections.
Qed.

Lemma default_specs_preserve_philosophy_witness :
  exists (b : option string) (rest : list Call),
    calls (run handleSimulate (sample_world silent_service)
             (run (handleFileUpload (Some sample_file))
                (parsing_world earlier_result) (boot initial_state))) =
    calls (run (handleFileUpload (Some sample_file))
             (parsing_world earlier_result) (boot initial_state)) ++
    CallGenerateContent
      (lutherie_request b (specs initial_state) "Artesanal (Gibson)") ::
    rest.
Proof.
  assert (Hne : "Artesanal (Gibson)" <> "") by discriminate.
  pose proof (default_specs_preserve_philosophy
                (parsing_world earlier_result)
                (sample_world silent_service) sample_file sample_image
                _ _ "Artesanal (Gibson)"
                eq_refl eq_refl eq_refl eq_refl Hne eq_refl) as H.
  cbv zeta in H. destruct H as (_ & _ & _ & H & _). exact H.
Defined.

(** ** The advisory chat *)

Lemma replace_last_snoc (h : list ChatMessage) (x y : ChatMessage) :
  replace_last y (h ++ [x]) = h ++ [y].
Proof.
  unfold replace_last. rewrite length_app. cbn [length].
  replace (pred (length h + 1)) with (length h) by lia.
  rewrite insert_app_r_alt by lia.
  now replace (length h - length h) with 0 by lia.
Qed.

(** While the loop runs, the last entry of the transcript holds the text
    accumulated so far. *)
Lemma consume_run (cs : list GenerateContentResponse)
  (broken : option Error) (w : World) :
  forall (full : string) (m : Machine) (h : list ChatMessage),
    chatHistory (ui m) = h ++ [mkChatMessage model full] ->
    let m' := run (consume cs broken full) w m in
    result (consume cs broken full) w m =
      match broken with
      | Some e => Throw e
      | None => Return tt
      end /\
    ui m' =
      with_chatHistory (h ++ [mkChatMessage model (accumulate cs full)])
        (ui m) /\
    calls m' = calls m.
Proof.
  induction cs as [|c rest IH]; intros full m h Hh; cbn [consume accumulate].
  - exec. destruct broken; exec; rewrite <- Hh; now destruct m as [[] ? ?].
  - exec.
    match goal with
    | |- context [consume rest broken ?f w ?m0] =>
        specialize (IH f m0 h)
    end.
    cbv zeta in IH. unfold run, result in IH. cbn [ui chatHistory
      with_chatHistory] in IH. rewrite Hh, replace_last_snoc in IH.
    specialize (IH eq_refl). rewrite Hh, replace_last_snoc.
    destruct (consume rest broken _ w _) as [o m1]. cbn [fst snd] in *.
    destruct IH as (-> & -> & ->). now repeat split.
Qed.

Lemma handleSendMessage_run (w : World) (m : Machine) (session : Chat) :
  chatSession (ui m) = Some session ->
  JS.trim_is_empty (chatInput (ui m)) = false ->
  let userMsg := chatInput (ui m) in
  let m' := run handleSendMessage w m in
  result handleSendMessage w m = Return tt /\
  ui m' =
    with_isChatting false
      (with_chatHistory
         (transcript_after (chatHistory (ui m)) userMsg
            (chat_sendMessageStream w session userMsg))
         (with_chatInput "" (ui m))) /\
  calls m' = calls m ++ [CallSendMessageStream session userMsg].
Proof.
  intros Hs Hi userMsg. unfold handleSendMessage. exec. rewrite Hi, Hs.
  exec. fold userMsg. unfold transcript_after.
  destruct (chat_sendMessageStream w session userMsg) as [stream|e]; exec;
    [|fields; rewrite <- app_assoc; repeat split; reflexivity].
  match goal with
  | |- context [consume ?cs ?b "" w ?m0] =>
      pose proof (consume_run cs b w "" m0
                    (chatHistory (ui m) ++ [mkChatMessage user userMsg])
                    eq_refl) as H
  end.
  cbv zeta in H. unfold run, result in H.
  destruct (consume _ _ _ w _) as [o m1]. cbn [fst snd] in *.
  destruct H as (-> & Hu & Hc).
  destruct (broken stream); exec; rewrite Hu, Hc; fields;
    rewrite <- ?app_assoc, ?app_nil_r; repeat split; reflexivity.
Qed.

(** C3, as the code has it - when the response stream breaks after some
    fragments, the interruption notice is appended as a new last entry of
    the transcript; the entry holding the text accumulated so far stays
    right before it; the busy flag is cleared and the session kept, so a
    next message can be typed and is sent on the same session. *)
Theorem interrupted_stream_appends_notice
  (w : World) (m : Machine) (session : Chat)
  (cs : list GenerateContentResponse) (e : Error) :
  chatSession (ui m) = Some session ->
  JS.trim_is_empty (chatInput (ui m)) = false ->
  chat_sendMessageStream w session (chatInput (ui m)) =
    Return (mkStream cs (Some e)) ->
  let m' := run handleSendMessage w m in
  chatHistory (ui m') =
    chatHistory (ui m) ++
    [mkChatMessage user (chatInput (ui m));
     mkChatMessage model (accumulate cs "");
     interruption_notice] /\
  last (chatHistory (ui m')) = Some interruption_notice /\
  isChatting (ui m') = false /\
  chatSession (ui m') = Some session /\
  (forall (w2 : World) (next : string),
     JS.trim_is_empty next = false ->
     send_disabled (with_chatInput next (ui m')) = false /\
     calls (run handleSendMessage w2 (run (setChatInput next) w2 m')) =
       calls m' ++ [CallSendMessageStream session next]).
Proof.
  intros Hs Hi Hw m'.
  destruct (handleSendMessage_run w m session Hs Hi) as (_ & Hu & _).
  cbv zeta in Hu. fold m' in Hu. rewrite Hw in Hu.
  unfold transcript_after in Hu. cbn [chunks broken] in Hu.
  split; [|split; [|split; [|split]]].
  - rewrite Hu. reflexivity.
  - rewrite Hu. cbn [chatHistory with_isChatting with_chatHistory].
    rewrite app_assoc. apply last_snoc.
  - rewrite Hu. reflexivity.
  - rewrite Hu. exact Hs.
  - intros w2 next Hn. split.
    + unfold send_disabled. rewrite Hu.
      cbn [chatInput isChatting with_chatInput with_isChatting
           with_chatHistory]. now rewrite Hn.
    + assert (Hs' : chatSession (ui (run (setChatInput next) w2 m')) =
                    Some session) by (exec; rewrite Hu; exact Hs).
      destruct (handleSendMessage_run w2 _ session Hs' Hn) as (_ & _ & Hc).
      exact Hc.
Qed.

Lemma interrupted_stream_appends_notice_witness :
  chatHistory (ui (run handleSendMessage (sample_world silent_service)
                     asking)) =
    [greeting; mkChatMessage user question; mkChatMessage model "Map";
     interruption_notice].
Proof.
  pose proof (interrupted_stream_appends_notice
                (sample_world silent_service) asking
                (mkChat "gemini-3-flash-preview"
                   (mkConfig None None (Some chat_systemInstruction)
                      (Some "0.5") None))
                [mkResponse (Some "Map") None] "network error"
                eq_refl eq_refl eq_refl) as H.
  cbv zeta in H. destruct H as [H _]. exact H.
Defined.

(** C3, as stated - a stream that yields one fragment and breaks leaves
    that fragment in the transcript: it is not replaced by the notice. *)
Lemma interrupted_stream_keeps_partial_text :
  ~ partial_text_replaced
      (chatHistory (ui asking))
      (chatHistory (ui (run handleSendMessage (sample_world silent_service)
                          asking)))
      question /\
  In (mkChatMessage model "Map")
     (chatHistory (ui (run handleSendMessage (sample_world silent_service)
                         asking))).
Proof.
  split.
  - unfold partial_text_replaced. vm_compute. intros H. discriminate H.
  - vm_compute. right. right. left. reflexivity.
Qed.

(** * Further properties of the services and of the shell *)

(** ** services/geminiService.ts *)

Lemma generateLutheriePrompt_default b s :
  generateLutheriePrompt b s None =
  generateLutheriePrompt b s (Some "Standard Industry Design").
Proof. reflexivity. Qed.

Lemma createLuthierChatSession_eq (w : World) (m : Machine) :
  createLuthierChatSession w m =
  if JS.truthy (API_KEY w) then
    let chat :=
      mkChat "gemini-3-flash-preview"
        (mkConfig None None (Some chat_systemInstruction) (Some "0.5")
           None) in
    (Return chat, log_call (CallChatsCreate chat) m)
  else (Throw missing_key, m).
Proof.
  unfold createLuthierChatSession, bind. rewrite getAiClient_eq.
  now destruct (JS.truthy (API_KEY w)).
Qed.

(** X1 - without a credential (absent or empty) each of the four services
    throws the missing-key error before anything else happens: no call
    leaves the program and the state is the one it started from. *)
Theorem missing_key_stops_every_service
  (w : World) (m : Machine) (b : option string) (s : GuitarSpecs)
  (p : option string) (t : string) :
  JS.truthy (API_KEY w) = false ->
  analyzeGuitarImage b w m = (Throw missing_key, m) /\
  generateLutheriePrompt b s p w m = (Throw missing_key, m) /\
  generateModifiedGuitarImage t w m = (Throw missing_key, m) /\
  createLuthierChatSession w m = (Throw missing_key, m).
Proof.
  intros Hk. repeat split.
  - now rewrite analyzeGuitarImage_eq, Hk.
  - destruct p as [p|]; [|rewrite generateLutheriePrompt_default];
      now rewrite generateLutheriePrompt_eq, Hk.
  - now rewrite generateModifiedGuitarImage_eq, Hk.
  - now rewrite createLuthierChatSession_eq, Hk.
Qed.

Lemma missing_key_stops_every_service_witness :
  generateModifiedGuitarImage "a guitar" keyless_world (boot uploaded) =
    (Throw missing_key, boot uploaded) /\
  createLuthierChatSession empty_key_world (boot initial_state) =
    (Throw missing_key, boot initial_state).
Proof.
  split.
  - apply (missing_key_stops_every_service keyless_world (boot uploaded)
             None default_specs None "a guitar" eq_refl).
  - apply (missing_key_stops_every_service empty_key_world
             (boot initial_state) None default_specs None "" eq_refl).
Defined.

(** X2 - with a credential [analyzeGuitarImage] issues exactly one call,
    the analysis request, and touches no state; an error of the call is
    rethrown as it is, a reply without text (absent or empty) is the
    error No analysis received, and any other reply is whatever parsing
    its text gives. *)
Theorem analysis_outcomes (w : World) (m : Machine) (b : option string) :
  JS.truthy (API_KEY w) = true ->
  let req := analysis_request b in
  let out := result (analyzeGuitarImage b) w m in
  run (analyzeGuitarImage b) w m = log_call (CallGenerateContent req) m /\
  (forall e : Error, models_generateContent w req = Throw e ->
     out = Throw e) /\
  (forall r : GenerateContentResponse,
     models_generateContent w req = Return r ->
     JS.truthy (resp_text r) = false ->
     out = Throw "No analysis received") /\
  (forall (r : GenerateContentResponse) (t : string),
     models_generateContent w req = Return r ->
     resp_text r = Some t -> t <> "" ->
     out = JSON_parse w t).
Proof.
  intros Hk req out. unfold out, run, result.
  rewrite analyzeGuitarImage_eq, Hk. cbn [fst snd]. fold req.
  unfold analysed, answered. fold req. split; [reflexivity|].
  split; [|split].
  - intros e ->. reflexivity.
  - intros r -> Ht. now rewrite Ht.
  - intros r t -> Ht Hne. rewrite Ht. destruct t; [now destruct Hne|].
    reflexivity.
Qed.

Lemma analysis_outcomes_witness :
  result (analyzeGuitarImage (Some "QUJD")) (sample_world silent_service)
    (boot uploaded) = Throw "No analysis received".
Proof.
  refine (proj1 (proj2 (proj2
            (analysis_outcomes (sample_world silent_service) (boot uploaded)
               (Some "QUJD") eq_refl))) (mkResponse None None) eq_refl
            eq_refl).
Defined.

Lemma or_else_nonempty (o : option string) (d : string) :
  d <> "" -> JS.or_else o d <> "".
Proof.
  intros Hd. destruct o as [[|c s]|]; simpl; auto; discriminate.
Qed.

(** X3 - the prompt returned by [generateLutheriePrompt] is never the
    empty string, so every image request that [handleSimulate] issues
    carries a non-empty prompt. *)
Theorem synthesized_prompt_never_empty
  (w : World) (m : Machine) (b : option string) (s : GuitarSpecs)
  (p : option string) :
  (forall prompt : string,
     result (generateLutheriePrompt b s p) w m = Return prompt ->
     prompt <> "") /\
  (forall t : string,
     In (CallGenerateContent (image_request t))
        (calls (run handleSimulate w m)) ->
     In (CallGenerateContent (image_request t)) (calls m) \/ t <> "").
Proof.
  split.
  - intros prompt H. unfold result in H.
    destruct p as [p|]; [|rewrite generateLutheriePrompt_default in H];
      rewrite generateLutheriePrompt_eq in H;
      (destruct (JS.truthy (API_KEY w)); [|discriminate H]);
      cbn [fst] in H; unfold synthesized, answered in H;
      (destruct (models_generateContent w _); [|discriminate H]);
      injection H as <-; apply or_else_nonempty; discriminate.
  - intros t Hin.
    destruct (JS.truthy (originalImage (ui m))) eqn:Hi.
    + destruct (JS.truthy (API_KEY w)) eqn:Hk.
      * pose proof (handleSimulate_ready w m Hi Hk) as H. cbv zeta in H.
        destruct (synthesized w _) as [prompt|e] eqn:Hs.
        -- destruct H as [Hc _]. rewrite Hc in Hin.
           apply in_app_or in Hin as [Hin|Hin].
           ++ apply in_app_or in Hin as [Hin|[Hin|[]]];
                [now left | discriminate Hin].
           ++ destruct Hin as [Hin|[]]. injection Hin as <-. right.
              unfold synthesized, answered in Hs.
              destruct (models_generateContent w _); [|discriminate Hs].
              injection Hs as <-. apply or_else_nonempty. discriminate.
        -- destruct H as [_ Hc]. rewrite Hc in Hin.
           apply in_app_or in Hin as [Hin|[Hin|[]]];
             [now left | discriminate Hin].
      * destruct (handleSimulate_no_key w m Hi Hk) as [_ Hc].
        rewrite Hc in Hin. now left.
    + unfold run in Hin. rewrite (handleSimulate_idle w m Hi) in Hin.
      now left.
Qed.

Lemma synthesized_prompt_never_empty_witness :
  "Failed to generate prompt." <> "".
Proof.
  apply (proj1 (synthesized_prompt_never_empty (sample_world silent_service)
                  (boot uploaded) None default_specs None)).
  reflexivity.
Defined.

(** X4 - the request sent to the synthesizer depends on the body wood,
    fretboard, bridge, pickups, neck profile and notes only: two records
    that agree on them (absent and empty notes counting as equal) give
    the same request, whatever their scale length, radius, construction
    and philosophy fields. *)
Theorem request_ignores_geometry
  (b : option string) (s s' : GuitarSpecs) (p : string) :
  bodyWood s = bodyWood s' ->
  fretboard s = fretboard s' ->
  bridge s = bridge s' ->
  pickups s = pickups s' ->
  neckProfile s = neckProfile s' ->
  JS.or_else (notes s) "" = JS.or_else (notes s') "" ->
  lutherie_request b s p = lutherie_request b s' p.
Proof.
  intros Hw Hf Hb Hp Hn Ho.
  unfold lutherie_request, userPrompt_of, philosophyInstruction_of.
  cbv zeta. now rewrite Hw, Hf, Hb, Hp, Hn, Ho.
Qed.

Lemma request_ignores_geometry_witness :
  lutherie_request None default_specs "Modular (Fender)" =
  lutherie_request None
    (mkGuitarSpecs ALDER MODERN_C ROSEWOOD TUNE_O_MATIC HH "25.5" "9.5"
       None (Some "Bolt-on") (Some "Modular"))
    "Modular (Fender)".
Proof.
  apply request_ignores_geometry; reflexivity.
Defined.

(** X5 - the philosophy that [handleSimulate] passes on is never empty:
    it is the detected philosophy when the analysis result has one that
    is not empty, and Standard Industry Design when there is no analysis
    result, no detected specs in it, or no philosophy among them. *)
Theorem philosophy_sent_never_empty (s : AppState) :
  philosophy_of s <> "" /\
  (forall (r : AnalysisResult) (d : PartialSpecs) (p : string),
     analysisResult s = Some r -> detectedSpecs r = Some d ->
     d_philosophy d = Some p -> p <> "" ->
     philosophy_of s = p) /\
  (analysisResult s = None -> philosophy_of s = "Standard Industry Design") /\
  (forall r : AnalysisResult,
     analysisResult s = Some r -> detectedSpecs r = None ->
     philosophy_of s = "Standard Industry Design") /\
  (forall (r : AnalysisResult) (d : PartialSpecs),
     analysisResult s = Some r -> detectedSpecs r = Some d ->
     JS.truthy (d_philosophy d) = false ->
     philosophy_of s = "Standard Industry Design").
Proof.
  unfold philosophy_of. split; [|split; [|split; [|split]]].
  - apply or_else_nonempty. discriminate.
  - intros r d p -> Hd Hp Hne. cbn [mbind option_bind]. rewrite Hd.
    cbn [mbind option_bind]. rewrite Hp. destruct p; [now destruct Hne|].
    reflexivity.
  - intros ->. reflexivity.
  - intros r -> Hd. cbn [mbind option_bind]. now rewrite Hd.
  - intros r d -> Hd Hp. cbn [mbind option_bind]. rewrite Hd.
    cbn [mbind option_bind]. now destruct (d_philosophy d) as [[|c p]|].
Qed.

Lemma philosophy_sent_never_empty_witness :
  philosophy_of uploaded = "Standard Industry Design".
Proof.
  apply (proj1 (proj2 (proj2 (philosophy_sent_never_empty uploaded)))).
  reflexivity.
Defined.

Lemma first_inline_image_skip (skipped rest : list Part) :
  Forall (fun q => ~ carries_image q) skipped ->
  first_inline_image (skipped ++ rest) = first_inline_image rest.
Proof.
  induction 1 as [|q skipped Hq _ IH]; [reflexivity|].
  cbn [app first_inline_image].
  destruct (inlineData q) as [d|] eqn:Ed; [|exact IH].
  destruct (JS.truthy (data d)) eqn:Et; [|exact IH].
  exfalso. apply Hq. apply truthy_iff in Et as (payload & Hp & Hne).
  now exists d, payload.
Qed.

(** X6 - when several parts of the reply carry image data,
    [generateModifiedGuitarImage] returns the data URI of the first one:
    text parts and parts whose data is absent or empty before it are
    skipped, and whatever follows it is not looked at. *)
Theorem first_image_part_wins
  (w : World) (m : Machine) (technicalPrompt : string)
  (response : GenerateContentResponse) (skipped rest : list Part)
  (p : Part) (d : InlineData) (payload : string) :
  JS.truthy (API_KEY w) = true ->
  models_generateContent w (image_request technicalPrompt) =
    Return response ->
  first_candidate_parts response = Some (skipped ++ p :: rest) ->
  Forall (fun q => ~ carries_image q) skipped ->
  inlineData p = Some d -> data d = Some payload -> payload <> "" ->
  result (generateModifiedGuitarImage technicalPrompt) w m =
    Return (image_uri d payload).
Proof.
  intros Hk Hr Hps Hskip Hd Hp Hne. unfold result.
  rewrite generateModifiedGuitarImage_eq, Hk. cbn [fst].
  unfold rendered, answered, image_of_response. rewrite Hr, Hps.
  rewrite first_inline_image_skip by exact Hskip.
  cbn [first_inline_image]. rewrite Hd, Hp.
  destruct payload; [now destruct Hne|]. reflexivity.
Qed.

Lemma first_image_part_wins_witness :
  result (generateModifiedGuitarImage "a guitar")
    (sample_world picture_service) (boot uploaded) =
  Return "data:image/png;base64,QUJD".
Proof.
  apply (first_image_part_wins (sample_world picture_service)
           (boot uploaded) "a guitar" _ [mkPart None (Some "done")] []
           picture_part (mkInlineData (Some "image/png") (Some "QUJD"))
           "QUJD" eq_refl eq_refl eq_refl).
  - constructor; [|constructor].
    intros (d & payload & Hd & _). discriminate Hd.
  - reflexivity.
  - reflexivity.
  - discriminate.
Defined.

(** X7 - only the first candidate of the reply is read: the outcome of
    [generateModifiedGuitarImage] is the same as if the reply had that
    candidate alone and no text, and a first candidate without content
    or parts is the error No image generated whatever the other
    candidates carry. *)
Theorem only_first_candidate_is_read
  (w w' : World) (m m' : Machine) (technicalPrompt : string)
  (t t' : option string) (c0 : Candidate) (others : list Candidate) :
  JS.truthy (API_KEY w) = true ->
  JS.truthy (API_KEY w') = true ->
  models_generateContent w (image_request technicalPrompt) =
    Return (mkResponse t (Some (c0 :: others))) ->
  models_generateContent w' (image_request technicalPrompt) =
    Return (mkResponse t' (Some [c0])) ->
  result (generateModifiedGuitarImage technicalPrompt) w m =
    result (generateModifiedGuitarImage technicalPrompt) w' m' /\
  ((content c0 = None \/ content c0 = Some (mkContent None)) ->
   result (generateModifiedGuitarImage technicalPrompt) w m =
     Throw "No image generated").
Proof.
  intros Hk Hk' Hr Hr'. unfold result.
  rewrite !generateModifiedGuitarImage_eq, Hk, Hk'. cbn [fst].
  unfold rendered, answered, image_of_response. rewrite Hr, Hr'.
  split; [reflexivity|].
  unfold first_candidate_parts. cbn [candidates mbind option_bind head].
  intros [-> | ->]; reflexivity.
Qed.

Lemma only_first_candidate_is_read_witness :
  result (generateModifiedGuitarImage "a guitar")
    (sample_world (fun _ =>
       Return (mkResponse (Some "here it is")
                 (Some [mkCandidate None;
                        mkCandidate (Some (mkContent (Some
                          [picture_part])))]))))
    (boot uploaded) = Throw "No image generated".
Proof.
  apply (only_first_candidate_is_read
           (sample_world (fun _ =>
              Return (mkResponse (Some "here it is")
                        (Some [mkCandidate None;
                               mkCandidate (Some (mkContent (Some
                                 [picture_part])))]))))
           (sample_world (fun _ =>
              Return (mkResponse None (Some [mkCandidate None]))))
           (boot uploaded) (boot uploaded) "a guitar"
           (Some "here it is") None (mkCandidate None)
           [mkCandidate (Some (mkContent (Some [picture_part])))]
           eq_refl eq_refl eq_refl eq_refl).
  left. reflexivity.
Defined.

Lemma toLowerCase_char_idempotent (c : ascii) :
  JS.toLowerCase_char (JS.toLowerCase_char c) = JS.toLowerCase_char c.
Proof.
  destruct c as [[] [] [] [] [] [] [] []]; vm_compute; reflexivity.
Qed.

Lemma toLowerCase_idempotent (s : string) :
  JS.toLowerCase (JS.toLowerCase s) = JS.toLowerCase s.
Proof.
  induction s as [|c s IH]; [reflexivity|].
  cbn [JS.toLowerCase]. now rewrite toLowerCase_char_idempotent, IH.
Qed.

(** X8 - the trigger test looks at nothing but the presence of a word:
    notes that trigger keep triggering with any text put before or after
    them, the lower-cased notes trigger exactly when the notes do, and
    the empty notes do not trigger. *)
Theorem trigger_survives_additions (pre notes post : string) :
  (isFrankenstein notes = true ->
   isFrankenstein (pre +:+ notes +:+ post) = true) /\
  isFrankenstein (JS.toLowerCase notes) = isFrankenstein notes /\
  isFrankenstein "" = false.
Proof.
  split; [|split; [|reflexivity]].
  - rewrite !isFrankenstein_iff.
    intros (w & Hin & a & mid & b & -> & Hmid).
    exists w. split; [exact Hin|].
    exists (pre +:+ a), mid, (b +:+ post). split; [|exact Hmid].
    now rewrite !append_assoc.
  - unfold isFrankenstein. now rewrite toLowerCase_idempotent.
Qed.

Lemma trigger_survives_additions_witness :
  isFrankenstein ("Gold hardware, " +:+ "light RELIC" +:+ " on the body") =
  true.
Proof.
  apply (proj1 (trigger_survives_additions "Gold hardware, " "light RELIC"
                  " on the body")).
  reflexivity.
Defined.

(** ** States shown along a computation *)

Lemma passes_refl (P : AppState -> Prop) (m : Machine) :
  passes_through P m m.
Proof. exists []. split; [reflexivity | constructor]. Qed.

Lemma passes_trans (P : AppState -> Prop) (m m1 m2 : Machine) :
  passes_through P m m1 -> passes_through P m1 m2 ->
  passes_through P m m2.
Proof.
  intros (t1 & H1 & F1) (t2 & H2 & F2). exists (t2 ++ t1). split.
  - now rewrite H2, H1, app_assoc.
  - apply Forall_app. now split.
Qed.

Lemma passes_commit (P : AppState -> Prop) f (m : Machine) :
  P (f (ui m)) -> passes_through P m (commit f m).
Proof.
  intros H. exists [f (ui m)]. split; [reflexivity|].
  constructor; [exact H | constructor].
Qed.

Lemma passes_log_call (P : AppState -> Prop) c (m : Machine) :
  passes_through P m (log_call c m).
Proof. exists []. split; [reflexivity | constructor]. Qed.

Lemma passes_ui (P : AppState -> Prop) (m m' : Machine) :
  P (ui m) -> passes_through P m m' -> P (ui m').
Proof.
  intros Hm ([|s t] & H & F); unfold history in H.
  - injection H as -> _. exact Hm.
  - injection H as -> _. now inversion F.
Qed.



Lemma linked_impl (R R' : AppState -> AppState -> Prop)
  (l : list AppState) :
  (forall s s', R s s' -> R' s s') -> linked R l -> linked R' l.
Proof.
  intros HR. induction l as [|x l IH]; [trivial|].
  intros [H1 H2]. split; [|now apply IH]. destruct l; auto.
Qed.





Lemma steps_weaken (R R' : AppState -> AppState -> Prop)
  (m m' : Machine) :
  (forall s s', R s s' -> R' s s') -> steps_by R m m' -> steps_by R' m m'.
Proof.
  intros HR (t & H & L). exists t. split; [exact H|].
  now apply (linked_impl R).
Qed.

Section Keeps.

Variable I : AppState -> Prop.

Lemma keeps_still {A} (c : IO A) :
  (forall w m, run c w m = m) -> keeps I c.
Proof. intros H w m _. rewrite H. apply passes_refl. Qed.

Lemma keeps_ret {A} (a : A) : keeps I (ret a).
Proof. now apply keeps_still. Qed.

Lemma keeps_throw {A} (e : Error) : keeps I (@throw A e).
Proof. now apply keeps_still. Qed.

Lemma keeps_snapshot : keeps I snapshot.
Proof. now apply keeps_still. Qed.

Lemma keeps_perform {A} c (answer : World -> Outcome A) :
  keeps I (perform c answer).
Proof. intros w m _. apply passes_log_call. Qed.

Lemma keeps_update f :
  (forall s, I s -> I (f s)) -> keeps I (update f).
Proof. intros H w m Hi. apply passes_commit. now apply H. Qed.

Lemma keeps_bind {A B} (c : IO A) (k : A -> IO B) :
  keeps I c -> (forall a, keeps I (k a)) -> keeps I (bind c k).
Proof.
  intros Hc Hk w m Hi. specialize (Hc w m Hi).
  unfold run, bind in *. destruct (c w m) as [[a|e] m1]; cbn [snd] in *.
  - eapply passes_trans; [exact Hc|].
    apply Hk. eapply passes_ui; eauto.
  - exact Hc.
Qed.

Lemma keeps_try_catch {A} (c : IO A) (handler : Error -> IO A) :
  keeps I c -> (forall e, keeps I (handler e)) ->
  keeps I (try_catch c handler).
Proof.
  intros Hc Hh w m Hi. specialize (Hc w m Hi).
  unfold run, try_catch in *.
  destruct (c w m) as [[a|e] m1]; cbn [snd] in *.
  - exact Hc.
  - eapply passes_trans; [exact Hc|].
    apply Hh. eapply passes_ui; eauto.
Qed.

Lemma keeps_finally {A} (c : IO A) (f : IO unit) :
  keeps I c -> keeps I f -> keeps I (finally c f).
Proof.
  intros Hc Hf w m Hi. specialize (Hc w m Hi).
  unfold run, finally in *. destruct (c w m) as [r m1]; cbn [snd] in *.
  assert (H1 : I (ui m1)) by (eapply passes_ui; eauto).
  specialize (Hf w m1 H1). unfold run in Hf.
  destruct (f w m1) as [[u|e] m2]; cbn [snd] in *.
  - eapply passes_trans; [exact Hc | exact Hf].
  - eapply passes_trans; [exact Hc | exact Hf].
Qed.

Lemma keeps_analyzeGuitarImage b : keeps I (analyzeGuitarImage b).
Proof.
  intros w m _. unfold run. rewrite analyzeGuitarImage_eq.
  destruct (JS.truthy (API_KEY w)); cbn [snd];
    [apply passes_log_call | apply passes_refl].
Qed.

Lemma keeps_generateLutheriePrompt b s p :
  keeps I (generateLutheriePrompt b s p).
Proof.
  intros w m _. unfold run.
  destruct p as [p|]; [|rewrite generateLutheriePrompt_default];
    rewrite generateLutheriePrompt_eq;
    destruct (JS.truthy (API_KEY w)); cbn [snd];
    solve [apply passes_log_call | apply passes_refl].
Qed.

Lemma keeps_generateModifiedGuitarImage t :
  keeps I (generateModifiedGuitarImage t).
Proof.
  intros w m _. unfold run. rewrite generateModifiedGuitarImage_eq.
  destruct (JS.truthy (API_KEY w)); cbn [snd];
    [apply passes_log_call | apply passes_refl].
Qed.

Lemma keeps_fileToGenerativePart file : keeps I (fileToGenerativePart file).
Proof.
  apply keeps_still. intros w m. unfold run, fileToGenerativePart.
  now destruct (FileReader_readAsDataURL w file).
Qed.


End Keeps.

(** ** The advisory chat, further *)

Lemma append_empty_r (a : string) : a +:+ "" = a.
Proof.
  induction a as [|x a IH]; [reflexivity|].
  rewrite append_cons. now rewrite IH.
Qed.

Lemma accumulate_stream_text (cs : list GenerateContentResponse) :
  forall full : string, accumulate cs full = full +:+ stream_text cs.
Proof.
  induction cs as [|c rest IH]; intros full; cbn [accumulate stream_text
    fold_right].
  - now rewrite append_empty_r.
  - rewrite IH. apply append_assoc.
Qed.

Lemma run_bind_update {B} f (k : unit -> IO B) (w : World) (m : Machine) :
  run (bind (update f) k) w m = run (k tt) w (commit f m).
Proof. reflexivity. Qed.

Lemma run_finally_update {A} (c : IO A) f (w : World) (m : Machine) :
  run (finally c (update f)) w m = commit f (run c w m).
Proof.
  unfold run, finally, update. now destruct (c w m).
Qed.

Lemma run_bind_snapshot {B} (k : AppState -> IO B) (w : World)
  (m : Machine) :
  run (bind snapshot k) w m = run (k (ui m)) w m.
Proof. reflexivity. Qed.


(** X9 - the mount effect never fails. With a credential it creates one
    chat session on the flash model, stores it and makes the greeting the
    whole transcript; without one it changes nothing at all and issues no
    call, so the advisory tab stays without session and without
    greeting. *)
Theorem chat_mounts_only_with_key (w : World) (m : Machine) :
  result initChat w m = Return tt /\
  (JS.truthy (API_KEY w) = false -> run initChat w m = m) /\
  (JS.truthy (API_KEY w) = true ->
   exists session : Chat,
     chat_model session = "gemini-3-flash-preview" /\
     ui (run initChat w m) =
       with_chatHistory [greeting]
         (with_chatSession (Some session) (ui m)) /\
     calls (run initChat w m) = calls m ++ [CallChatsCreate session]).
Proof.
  unfold initChat, run, result, try_catch, bind.
  rewrite createLuthierChatSession_eq.
  destruct (JS.truthy (API_KEY w)); cbv zeta; exec.
  - split; [reflexivity|]. split; [discriminate|]. intros _.
    eexists. repeat split; reflexivity.
  - split; [reflexivity|]. split; [reflexivity | discriminate].
Qed.

Lemma chat_mounts_only_with_key_witness :
  run initChat keyless_world (boot initial_state) = boot initial_state.
Proof.
  apply (proj1 (proj2 (chat_mounts_only_with_key keyless_world
                         (boot initial_state)))).
  reflexivity.
Defined.

Lemma trim_is_empty_spec (s : string) :
  JS.trim_is_empty s = true <->
  Forall (fun c => JS.is_white c = true) (list_ascii_of_string s).
Proof.
  unfold JS.trim_is_empty. induction s as [|c s IH];
    cbn [JS.trimStart list_ascii_of_string].
  - split; [constructor | reflexivity].
  - destruct (JS.is_white c) eqn:E.
    + rewrite IH. split; [now constructor | now inversion 1].
    + split; [discriminate|]. inversion 1; congruence.
Qed.

(** X10 - a send with an input made of white space only (or empty), or
    without a session, is ignored altogether: nothing is appended to the
    transcript, the input is not cleared and no call is issued. *)
Theorem blank_or_sessionless_send_is_ignored (w : World) (m : Machine) :
  Forall (fun c => JS.is_white c = true)
         (list_ascii_of_string (chatInput (ui m))) \/
  chatSession (ui m) = None ->
  handleSendMessage w m = (Return tt, m).
Proof.
  intros H. unfold handleSendMessage, bind, snapshot, ret.
  destruct (JS.trim_is_empty (chatInput (ui m))) eqn:E; [reflexivity|].
  destruct H as [H | ->]; [|reflexivity].
  apply trim_is_empty_spec in H. congruence.
Qed.

Lemma blank_or_sessionless_send_is_ignored_witness :
  handleSendMessage fluent_world
    (run (setChatInput "   ") fluent_world asking) =
  (Return tt, run (setChatInput "   ") fluent_world asking).
Proof.
  apply blank_or_sessionless_send_is_ignored. left.
  repeat constructor.
Defined.

(** X11 - when the stream runs to completion the transcript gains the
    user's message and one model message whose text is the texts of the
    chunks joined in order (chunks without text adding nothing); the
    input is cleared, the busy flag is off and one message was sent. *)
Theorem completed_stream_is_joined
  (w : World) (m : Machine) (session : Chat)
  (cs : list GenerateContentResponse) :
  chatSession (ui m) = Some session ->
  JS.trim_is_empty (chatInput (ui m)) = false ->
  chat_sendMessageStream w session (chatInput (ui m)) =
    Return (mkStream cs None) ->
  let m' := run handleSendMessage w m in
  chatHistory (ui m') =
    chatHistory (ui m) ++
    [mkChatMessage user (chatInput (ui m));
     mkChatMessage model (stream_text cs)] /\
  chatInput (ui m') = "" /\
  isChatting (ui m') = false /\
  calls m' = calls m ++ [CallSendMessageStream session (chatInput (ui m))].
Proof.
  intros Hs Hi Hw m'.
  destruct (handleSendMessage_run w m session Hs Hi) as (_ & Hu & Hc).
  cbv zeta in Hu, Hc. fold m' in Hu, Hc. rewrite Hw in Hu.
  unfold transcript_after in Hu. cbn [chunks broken] in Hu.
  rewrite accumulate_stream_text, append_nil, app_nil_r in Hu.
  rewrite Hu. now repeat split.
Qed.

Lemma completed_stream_is_joined_witness :
  chatHistory (ui (run handleSendMessage fluent_world asking)) =
    [greeting; mkChatMessage user question; mkChatMessage model "Maple."].
Proof.
  pose proof (completed_stream_is_joined fluent_world asking
                (mkChat "gemini-3-flash-preview"
                   (mkConfig None None (Some chat_systemInstruction)
                      (Some "0.5") None))
                [mkResponse (Some "Map") None; mkResponse None None;
                 mkResponse (Some "le.") None]
                eq_refl eq_refl eq_refl) as H.
  cbv zeta in H. destruct H as [H _]. exact H.
Defined.

(** X12 - when the session refuses the message outright, no placeholder
    is added: the transcript gains the user's message followed by the
    interruption notice; the input is cleared, the busy flag is off and
    the session kept. *)
Theorem refused_message_gets_notice
  (w : World) (m : Machine) (session : Chat) (e : Error) :
  chatSession (ui m) = Some session ->
  JS.trim_is_empty (chatInput (ui m)) = false ->
  chat_sendMessageStream w session (chatInput (ui m)) = Throw e ->
  let m' := run handleSendMessage w m in
  result handleSendMessage w m = Return tt /\
  chatHistory (ui m') =
    chatHistory (ui m) ++
    [mkChatMessage user (chatInput (ui m)); interruption_notice] /\
  chatInput (ui m') = "" /\
  isChatting (ui m') = false /\
  chatSession (ui m') = Some session.
Proof.
  intros Hs Hi Hw m'.
  destruct (handleSendMessage_run w m session Hs Hi) as (Hr & Hu & _).
  cbv zeta in Hu. fold m' in Hu. rewrite Hw in Hu.
  unfold transcript_after in Hu. rewrite Hu.
  split; [exact Hr|]. split; [reflexivity|]. split; [reflexivity|].
  split; [reflexivity | exact Hs].
Qed.

Lemma refused_message_gets_notice_witness :
  chatHistory (ui (run handleSendMessage empty_key_world asking)) =
    [greeting; mkChatMessage user question; interruption_notice].
Proof.
  pose proof (refused_message_gets_notice empty_key_world asking
                (mkChat "gemini-3-flash-preview"
                   (mkConfig None None (Some chat_systemInstruction)
                      (Some "0.5") None))
                "offline" eq_refl eq_refl eq_refl) as H.
  cbv zeta in H. destruct H as (_ & H & _). exact H.
Defined.






Lemma stream_text_take_S (cs : list GenerateContentResponse) :
  forall k : nat,
    exists x : string,
      stream_text (take (S k) cs) = stream_text (take k cs) +:+ x.
Proof.
  induction cs as [|c rest IH]; intros k.
  - exists "". now destruct k.
  - destruct k as [|k].
    + eexists. cbn [take stream_text fold_right]. reflexivity.
    + destruct (IH k) as [x Hx]. exists x.
      change (stream_text (take (S (S k)) (c :: rest)))
        with (JS.or_else (resp_text c) "" +:+
              stream_text (take (S k) rest)).
      change (stream_text (take (S k) (c :: rest)))
        with (JS.or_else (resp_text c) "" +:+ stream_text (take k rest)).
      now rewrite Hx, append_assoc.
Qed.

(** X14 - while the loop over the stream runs with the placeholder as
    last entry, it shows one state per chunk, in the order of the
    chunks; the state shown for the chunk of rank [k] differs from the
    starting one in the last entry alone, whose text is the text so far
    followed by the texts of the first [k] chunks, joined in order; each
    of these texts is the one before it with something added at its end:
    the message only grows. *)
Theorem streamed_text_grows
  (cs : list GenerateContentResponse) (broken : option Error) (w : World)
  (full : string) (m : Machine) (h : list ChatMessage) :
  chatHistory (ui m) = h ++ [mkChatMessage model full] ->
  history (run (consume cs broken full) w m) =
    rev (map (streamed h full cs (ui m)) (seq 1 (length cs))) ++
    history m /\
  (forall k : nat,
     exists x : string,
       stream_text (take (S k) cs) = stream_text (take k cs) +:+ x).
Proof.
  intros Hh. split; [|apply stream_text_take_S].
  revert full m Hh. induction cs as [|c rest IH]; intros full m Hh;
    cbn [consume].
  - now destruct broken.
  - unfold setChatHistory. rewrite run_bind_update.
    set (full' := full +:+ JS.or_else (resp_text c) "").
    match goal with
    | |- context [commit ?f0 m] => set (f := f0)
    end.
    assert (H1 : f (ui m) =
              with_chatHistory (h ++ [mkChatMessage model full']) (ui m)).
    { unfold f. now rewrite Hh, replace_last_snoc. }
    rewrite (IH full' (commit f m))
      by (cbn [ui commit]; now rewrite H1).
    cbn [length seq map rev]. rewrite <- (seq_shift (length rest) 1), map_map.
    rewrite <- app_assoc. f_equal.
    + f_equal. apply map_ext. intros k. cbn [ui commit]. rewrite H1.
      unfold streamed. cbn [take stream_text fold_right].
      fold (stream_text (take k rest)). unfold full'.
      now rewrite append_assoc.
    + unfold history. cbn [ui seen commit app]. rewrite H1.
      unfold streamed. cbn [take stream_text fold_right].
      unfold full'. now rewrite append_empty_r.
Qed.

Lemma streamed_text_grows_witness :
  history
    (run (consume [mkResponse (Some "Map") None;
                   mkResponse (Some "le.") None] None "")
       fluent_world
       (boot (with_chatHistory [greeting; mkChatMessage model ""]
                initial_state))) =
  [ with_chatHistory [greeting; mkChatMessage model "Maple."]
      initial_state;
    with_chatHistory [greeting; mkChatMessage model "Map"]
      initial_state;
    with_chatHistory [greeting; mkChatMessage model ""] initial_state ].
Proof.
  exact (proj1 (streamed_text_grows
                  [mkResponse (Some "Map") None;
                   mkResponse (Some "le.") None] None fluent_world ""
                  (boot (with_chatHistory
                           [greeting; mkChatMessage model ""]
                           initial_state)) [greeting] eq_refl)).
Defined.

(** X15 - the Enter key sends through [handleSendMessage], which does not
    look at the busy flag: pressed while a response is still streaming,
    with a session and some text typed, it sends that text all the same;
    any other key does nothing. *)
Theorem enter_sends_even_while_streaming
  (w : World) (m : Machine) (session : Chat) (key : string) :
  chatSession (ui m) = Some session ->
  JS.trim_is_empty (chatInput (ui m)) = false ->
  isChatting (ui m) = true ->
  (send_disabled (ui m) = true /\
   calls (run (onKeyDown "Enter") w m) =
     calls m ++ [CallSendMessageStream session (chatInput (ui m))]) /\
  (key <> "Enter" -> onKeyDown key w m = (Return tt, m)).
Proof.
  intros Hs Hi Hc. split; [split|].
  - unfold send_disabled. rewrite Hc. apply orb_true_r.
  - change (onKeyDown "Enter") with handleSendMessage.
    now destruct (handleSendMessage_run w m session Hs Hi) as (_ & _ & H).
  - intros Hk. unfold onKeyDown.
    destruct (String.eqb_spec key "Enter") as [->|_]; [now destruct Hk|].
    reflexivity.
Qed.

Lemma enter_sends_even_while_streaming_witness :
  calls (run (onKeyDown "Enter") fluent_world
           (boot (with_isChatting true (ui asking)))) =
  [CallSendMessageStream
     (mkChat "gemini-3-flash-preview"
        (mkConfig None None (Some chat_systemInstruction) (Some "0.5")
           None))
     question].
Proof.
  pose proof (enter_sends_even_while_streaming fluent_world
                (boot (with_isChatting true (ui asking)))
                (mkChat "gemini-3-flash-preview"
                   (mkConfig None None (Some chat_systemInstruction)
                      (Some "0.5") None))
                "a" eq_refl eq_refl eq_refl) as H.
  destruct H as [[_ H] _]. exact H.
Defined.

(** ** The generation pipeline, further *)

Ltac keeps_step :=
  cbv beta;
  lazymatch goal with
  | |- keeps _ (ret _) => apply keeps_ret
  | |- keeps _ (throw _) => apply keeps_throw
  | |- keeps _ snapshot => apply keeps_snapshot
  | |- keeps _ (perform _ _) => apply keeps_perform
  | |- keeps _ (analyzeGuitarImage _) => apply keeps_analyzeGuitarImage
  | |- keeps _ (generateLutheriePrompt _ _ _) =>
      apply keeps_generateLutheriePrompt
  | |- keeps _ (generateModifiedGuitarImage _) =>
      apply keeps_generateModifiedGuitarImage
  | |- keeps _ (fileToGenerativePart _) => apply keeps_fileToGenerativePart
  | |- keeps _ (finally _ _) => apply keeps_finally
  | |- keeps _ (try_catch _ _) => apply keeps_try_catch; [|intros ?]
  | |- keeps _ (bind _ _) => apply keeps_bind; [|intros ?]
  | |- keeps _ (update _) => apply keeps_update; intros ? ?; assumption
  end.

Ltac unfold_setters :=
  unfold setActiveTab, setOriginalImage, setRawFile, setIsAnalyzing,
    setIsGenerating, setAnalysisResult, setGeneratedPrompt,
    setGeneratedImage, setError, setChatSession, setChatHistory,
    setChatInput, setIsChatting, setSpecs.

(** X16 - [handleSimulate] never shows a state in which the specs, the
    uploaded image and file, the analysis result, the active tab, the
    analysis flag or anything of the chat differ from what it found: it
    writes the busy flag, the error, the prompt and the image only. *)
Theorem generation_touches_its_own_fields (w : World) (m : Machine) :
  passes_through
    (fun s =>
       specs s = specs (ui m) /\
       originalImage s = originalImage (ui m) /\
       rawFile s = rawFile (ui m) /\
       analysisResult s = analysisResult (ui m) /\
       activeTab s = activeTab (ui m) /\
       isAnalyzing s = isAnalyzing (ui m) /\
       chatSession s = chatSession (ui m) /\
       chatHistory s = chatHistory (ui m) /\
       chatInput s = chatInput (ui m) /\
       isChatting s = isChatting (ui m))
    m (run handleSimulate w m).
Proof.
  match goal with |- passes_through ?P _ _ => set (I := P) end.
  assert (K : keeps I handleSimulate).
  { unfold handleSimulate. unfold_setters.
    apply keeps_bind; [apply keeps_snapshot|]. intros s.
    destruct (negb (JS.truthy (originalImage s))); [apply keeps_ret|].
    cbv zeta. repeat keeps_step. }
  apply K. unfold I. now repeat split.
Qed.

(** X17 - with an image loaded, every state that [handleSimulate] shows
    before its last has the busy flag on, hence the GENERATE button
    disabled, and its last state has the flag off; without an image the
    handler does nothing at all. *)
Theorem generation_is_busy_until_done (w : World) (m : Machine) :
  (JS.truthy (originalImage (ui m)) = false ->
   handleSimulate w m = (Return tt, m)) /\
  (JS.truthy (originalImage (ui m)) = true ->
   let m' := run handleSimulate w m in
   isGenerating (ui m') = false /\
   exists trail : list AppState,
     trail <> [] /\
     history m' = ui m' :: trail ++ history m /\
     Forall (fun s => isGenerating s = true /\ generate_disabled s = true)
            trail).
Proof.
  split; [apply handleSimulate_idle|]. intros Hi m'.
  set (I := fun s : AppState => isGenerating s = true).
  assert (Hm' : exists mB : Machine,
            m' = commit (with_isGenerating false) mB /\
            passes_through I (commit (with_isGenerating true) m) mB).
  { unfold m', handleSimulate. rewrite run_bind_snapshot, Hi. cbn [negb].
    unfold setIsGenerating, setError, setGeneratedImage.
    unfold setGeneratedPrompt at 1.
    rewrite !run_bind_update, run_finally_update.
    eexists. split; [reflexivity|].
    set (m1 := commit (with_isGenerating true) m).
    set (m2 := commit (with_error None) m1).
    set (m3 := commit (with_generatedImage None) m2).
    set (m4 := commit (with_generatedPrompt None) m3).
    apply (passes_trans _ m1 m2); [now apply passes_commit|].
    apply (passes_trans _ m2 m3); [now apply passes_commit|].
    apply (passes_trans _ m3 m4); [now apply passes_commit|].
    assert (K : keeps I
      (try_catch
         (let base64Data := base64Data_of (ui m) in
          let philosophy := philosophy_of (ui m) in
          prompt <- generateLutheriePrompt base64Data (specs (ui m))
                      (Some philosophy) ;;
          setGeneratedPrompt (Some prompt) ;;
          newImage <- generateModifiedGuitarImage prompt ;;
          setGeneratedImage (Some newImage))
         (fun err => setError (Some simulation_failed_message)))).
    { cbv zeta. unfold_setters. repeat keeps_step. }
    apply K. reflexivity. }
  destruct Hm' as (mB & -> & (trail & Ht & Ft)).
  split; [reflexivity|].
  exists (trail ++ [with_isGenerating true (ui m)]). split; [|split].
  - now destruct trail.
  - unfold history at 1. cbn [ui seen commit]. fold (history mB).
    rewrite Ht. unfold history at 1. cbn [ui seen commit].
    fold (history m). now rewrite <- app_assoc.
  - apply Forall_app. split.
    + eapply Forall_impl; [exact Ft|]. intros s Hs. split; [exact Hs|].
      unfold generate_disabled. rewrite Hs. apply orb_true_r.
    + constructor; [|constructor]. split; [reflexivity|].
      unfold generate_disabled.
      cbn [isGenerating with_isGenerating]. apply orb_true_r.
Qed.

Lemma generation_is_busy_until_done_witness :
  isGenerating
    (ui (run handleSimulate (sample_world picture_service)
           (boot uploaded))) = false.
Proof.
  apply (proj2 (generation_is_busy_until_done (sample_world picture_service)
                  (boot uploaded))).
  reflexivity.
Defined.

(** X18 - after [handleSimulate] on a loaded image the shell shows either
    a rendered image or the failure message, never both and never
    neither; an image is never shown without the prompt it was rendered
    from. *)
Theorem generation_ends_with_image_or_error (w : World) (m : Machine) :
  JS.truthy (originalImage (ui m)) = true ->
  let s' := ui (run handleSimulate w m) in
  (error s' = None <-> exists uri : string, generatedImage s' = Some uri) /\
  (error s' = None \/ error s' = Some simulation_failed_message) /\
  (forall uri : string,
     generatedImage s' = Some uri ->
     exists prompt : string, generatedPrompt s' = Some prompt).
Proof.
  intros Hi s'. unfold s'.
  destruct (JS.truthy (API_KEY w)) eqn:Hk.
  - pose proof (handleSimulate_ready w m Hi Hk) as H. cbv zeta in H.
    destruct (synthesized w _) as [prompt|e].
    + destruct H as [_ ->]. destruct (rendered w prompt) as [uri|e].
      * split; [split; eauto|]. split; [now left|]. eauto.
      * split; [split; [discriminate | intros [? ?]; discriminate]|].
        split; [now right | discriminate].
    + destruct H as [-> _].
      split; [split; [discriminate | intros [? ?]; discriminate]|].
      split; [now right | discriminate].
  - destruct (handleSimulate_no_key w m Hi Hk) as [-> _].
    split; [split; [discriminate | intros [? ?]; discriminate]|].
    split; [now right | discriminate].
Qed.

Lemma generation_ends_with_image_or_error_witness :
  error (ui (run handleSimulate keyless_world (boot uploaded))) =
    Some simulation_failed_message.
Proof.
  pose proof (generation_ends_with_image_or_error keyless_world
                (boot uploaded) eq_refl) as H.
  cbv zeta in H. destruct H as (_ & [H|H] & _); [discriminate H | exact H].
Defined.

Lemma service_results (w : World) (m : Machine) b s p t prompt :
  result (generateLutheriePrompt b s (Some p)) w m = Return prompt ->
  JS.truthy (API_KEY w) = true /\
  synthesized w (lutherie_request b s p) = Return prompt /\
  result (generateModifiedGuitarImage t) w m = rendered w t.
Proof.
  unfold result. rewrite generateLutheriePrompt_eq,
    generateModifiedGuitarImage_eq.
  destruct (JS.truthy (API_KEY w)); [|discriminate]. cbn [fst]. auto.
Qed.

(** X19 - when both services answer, the text returned by prompt
    synthesis is exactly the text sent to image synthesis and shown as
    generated prompt, and the URI returned by image synthesis is the
    image shown; the two calls are issued in that order and no error is
    shown. *)
Theorem pipeline_feeds_prompt_to_renderer
  (w : World) (m : Machine) (prompt uri : string) :
  let s := ui m in
  let req := lutherie_request (base64Data_of s) (specs s) (philosophy_of s) in
  JS.truthy (originalImage s) = true ->
  result (generateLutheriePrompt (base64Data_of s) (specs s)
            (Some (philosophy_of s))) w m = Return prompt ->
  result (generateModifiedGuitarImage prompt) w m = Return uri ->
  let m' := run handleSimulate w m in
  generatedPrompt (ui m') = Some prompt /\
  generatedImage (ui m') = Some uri /\
  error (ui m') = None /\
  calls m' =
    (calls m ++ [CallGenerateContent req]) ++
    [CallGenerateContent (image_request prompt)].
Proof.
  intros s req Hi Hp Hu m'.
  destruct (service_results w m _ _ _ prompt prompt Hp) as (Hk & Hs & Hr).
  rewrite Hr in Hu.
  pose proof (handleSimulate_ready w m Hi Hk) as H. cbv zeta in H.
  fold s req m' in H. fold req in Hs. rewrite Hs, Hu in H.
  destruct H as [Hc ->]. now repeat split.
Qed.

Lemma pipeline_feeds_prompt_to_renderer_witness :
  generatedImage
    (ui (run handleSimulate (sample_world picture_service)
           (boot uploaded))) = Some "data:image/png;base64,QUJD".
Proof.
  pose proof (pipeline_feeds_prompt_to_renderer
                (sample_world picture_service) (boot uploaded)
                "Failed to generate prompt." "data:image/png;base64,QUJD"
                eq_refl eq_refl eq_refl) as H.
  cbv zeta in H. destruct H as (_ & H & _). exact H.
Defined.

(** X20 - when prompt synthesis answers and image synthesis then fails,
    the synthesized prompt stays on display next to the failure message;
    no image is shown and the busy flag is off. *)
Theorem render_failure_keeps_prompt
  (w : World) (m : Machine) (prompt : string) (e : Error) :
  let s := ui m in
  JS.truthy (originalImage s) = true ->
  result (generateLutheriePrompt (base64Data_of s) (specs s)
            (Some (philosophy_of s))) w m = Return prompt ->
  result (generateModifiedGuitarImage prompt) w m = Throw e ->
  let m' := run handleSimulate w m in
  generatedPrompt (ui m') = Some prompt /\
  generatedImage (ui m') = None /\
  error (ui m') = Some simulation_failed_message /\
  isGenerating (ui m') = false.
Proof.
  intros s Hi Hp Hu m'.
  destruct (service_results w m _ _ _ prompt prompt Hp) as (Hk & Hs & Hr).
  rewrite Hr in Hu.
  pose proof (handleSimulate_ready w m Hi Hk) as H. cbv zeta in H.
  fold s m' in H. rewrite Hs, Hu in H.
  destruct H as [_ ->]. now repeat split.
Qed.

Lemma render_failure_keeps_prompt_witness :
  generatedPrompt
    (ui (run handleSimulate (sample_world silent_service)
           (boot uploaded))) = Some "Failed to generate prompt.".
Proof.
  pose proof (render_failure_keeps_prompt
                (sample_world silent_service) (boot uploaded)
                "Failed to generate prompt." "No image generated"
                eq_refl eq_refl eq_refl) as H.
  cbv zeta in H. destruct H as (H & _). exact H.
Defined.

(** ** Upload, further *)

(** X21 - [handleFileUpload] never shows a state in which the specs, the
    generation flag or anything of the chat differ from what it found,
    whether the file is read or not and whatever the analysis answers. *)
Theorem upload_leaves_specs_and_chat
  (file_opt : option File) (w : World) (m : Machine) :
  passes_through
    (fun s =>
       specs s = specs (ui m) /\
       isGenerating s = isGenerating (ui m) /\
       chatSession s = chatSession (ui m) /\
       chatHistory s = chatHistory (ui m) /\
       chatInput s = chatInput (ui m) /\
       isChatting s = isChatting (ui m))
    m (run (handleFileUpload file_opt) w m).
Proof.
  match goal with |- passes_through ?P _ _ => set (I := P) end.
  assert (K : keeps I (handleFileUpload file_opt)).
  { unfold handleFileUpload, performAnalysis. unfold_setters.
    destruct file_opt as [file|]; repeat keeps_step. }
  apply K. unfold I. now repeat split.
Qed.

(** X22 - once the file is read, an upload records the file, replaces
    the image by the data URI made of the file type and the base64 text,
    drops the prompt and the image generated before, switches to the
    configurator tab and ends with the analysis flag off; when the
    analysis fails the error message is shown and no result is held;
    when it succeeds no message is shown and the shell holds what the
    reply parsed to, which is nothing when the reply is the text null. *)
Theorem upload_resets_previous_results
  (w : World) (m : Machine) (file : File) (url : string) :
  FileReader_readAsDataURL w file = Return url ->
  let s' := ui (run (handleFileUpload (Some file)) w m) in
  rawFile s' = Some file /\
  originalImage s' =
    Some ("data:" +:+ file_type file +:+ ";base64," +:+
          JS.interpolate (JS.split_at_1 "," url)) /\
  generatedPrompt s' = None /\
  generatedImage s' = None /\
  activeTab s' = configurator /\
  isAnalyzing s' = false /\
  match analysis_outcome w (JS.split_at_1 "," url) with
  | Return r => analysisResult s' = r /\ error s' = None
  | Throw _ =>
      analysisResult s' = None /\
      error s' = Some analysis_failed_message
  end.
Proof.
  intros Hf s'. unfold s'.
  destruct (handleFileUpload_run file url w m Hf) as (_ & -> & _).
  destruct (analysis_outcome w _); now repeat split.
Qed.

Lemma upload_resets_previous_results_witness :
  analysisResult
    (ui (run (handleFileUpload (Some sample_file)) null_world
           holding_results)) = None /\
  error
    (ui (run (handleFileUpload (Some sample_file)) null_world
           holding_results)) = None /\
  generatedImage
    (ui (run (handleFileUpload (Some sample_file)) null_world
           holding_results)) = None.
Proof.
  pose proof (upload_resets_previous_results null_world holding_results
                sample_file sample_image eq_refl) as H.
  cbv zeta in H. destruct H as (_ & _ & _ & H4 & _ & _ & H7 & H8).
  repeat split; assumption.
Defined.

(** X23 - an upload event without file does nothing; when the file
    cannot be read the handler fails with the reader's error after
    recording the file alone: image, analysis result, prompt, render and
    error message stay as they were, no message is shown and no call is
    issued. *)
Theorem unreadable_file_is_not_reported
  (w : World) (m : Machine) (file : File) (e : Error) :
  FileReader_readAsDataURL w file = Throw e ->
  handleFileUpload None w m = (Return tt, m) /\
  handleFileUpload (Some file) w m =
    (Throw e, commit (with_rawFile (Some file)) m) /\
  error (ui (run (handleFileUpload (Some file)) w m)) = error (ui m) /\
  calls (run (handleFileUpload (Some file)) w m) = calls m.
Proof.
  intros Hf.
  assert (H : handleFileUpload (Some file) w m =
              (Throw e, commit (with_rawFile (Some file)) m)).
  { unfold handleFileUpload. exec. unfold fileToGenerativePart.
    now rewrite Hf. }
  split; [reflexivity|]. split; [exact H|]. unfold run. now rewrite H.
Qed.

Lemma unreadable_file_is_not_reported_witness :
  handleFileUpload (Some sample_file)
    (mkWorld (Some "key") picture_service (fun _ _ => Throw "offline")
       (fun _ => Throw "Unexpected token")
       (fun _ => Throw "NotReadableError"))
    (boot uploaded) =
  (Throw "NotReadableError",
   commit (with_rawFile (Some sample_file)) (boot uploaded)).
Proof.
  apply (unreadable_file_is_not_reported
           (mkWorld (Some "key") picture_service (fun _ _ => Throw "offline")
              (fun _ => Throw "Unexpected token")
              (fun _ => Throw "NotReadableError"))
           (boot uploaded) sample_file "NotReadableError" eq_refl).
Defined.

Lemma startsWith_empty (s : string) : JS.startsWith s "" = true.
Proof. now destruct s. Qed.

Lemma includes_comma_cons (c : ascii) (s : string) :
  JS.includes (String c s) "," = Ascii.eqb c "," || JS.includes s ",".
Proof.
  cbn [JS.includes JS.startsWith]. now rewrite startsWith_empty, andb_true_r.
Qed.

Lemma comma_free_cons (c : ascii) (s : string) :
  comma_free (String c s) = negb (Ascii.eqb c ",") && comma_free s.
Proof.
  unfold comma_free. rewrite includes_comma_cons. apply negb_orb.
Qed.

Lemma comma_free_app (a b : string) :
  comma_free (a +:+ b) = comma_free a && comma_free b.
Proof.
  induction a as [|c a IH]; [reflexivity|].
  rewrite append_cons, !comma_free_cons, IH. apply andb_assoc.
Qed.

Lemma cut_comma_free (s : string) :
  comma_free s = true -> JS.cut "," s = (s, None).
Proof.
  induction s as [|c s IH]; [reflexivity|].
  rewrite comma_free_cons, andb_true_iff, negb_true_iff. intros [Hc Hs].
  cbn [JS.cut]. now rewrite Hc, (IH Hs).
Qed.

Lemma cut_first_comma (a b : string) :
  comma_free a = true -> JS.cut "," (a +:+ "," +:+ b) = (a, Some b).
Proof.
  induction a as [|c a IH]; [reflexivity|].
  rewrite comma_free_cons, andb_true_iff, negb_true_iff. intros [Hc Ha].
  rewrite append_cons. cbn [JS.cut]. now rewrite Hc, (IH Ha).
Qed.

Lemma split_at_1_payload (a b : string) :
  comma_free a = true -> comma_free b = true ->
  JS.split_at_1 "," (a +:+ "," +:+ b) = Some b.
Proof.
  intros Ha Hb. unfold JS.split_at_1.
  now rewrite (cut_first_comma a b Ha), (cut_comma_free b Hb).
Qed.

(** X24 - when the file type, the header of the data URL read from the
    file and its base64 text hold no comma, the text cut out of the URL
    by the upload is the text cut out of the stored image by the
    generation: the analysis request and the synthesis request carry the
    same image data. *)
Theorem upload_keeps_the_payload
  (w : World) (m : Machine) (file : File) (header payload : string) :
  FileReader_readAsDataURL w file = Return (header +:+ "," +:+ payload) ->
  comma_free header = true ->
  comma_free payload = true ->
  comma_free (file_type file) = true ->
  JS.truthy (API_KEY w) = true ->
  let m' := run (handleFileUpload (Some file)) w m in
  calls m' = calls m ++ [CallGenerateContent (analysis_request (Some payload))]
  /\
  originalImage (ui m') =
    Some ("data:" +:+ file_type file +:+ ";base64," +:+ payload) /\
  base64Data_of (ui m') = Some payload.
Proof.
  intros Hf Hh Hp Ht Hk m'.
  destruct (handleFileUpload_run file _ w m Hf) as (_ & Hu & Hc).
  cbv zeta in Hu, Hc. fold m' in Hu, Hc.
  rewrite (split_at_1_payload header payload Hh Hp) in Hu, Hc.
  rewrite Hk in Hc. split; [exact Hc|].
  assert (Ho : originalImage (ui m') =
               Some ("data:" +:+ file_type file +:+ ";base64," +:+ payload))
    by (rewrite Hu; now destruct (analysis_outcome w _)).
  split; [exact Ho|]. unfold base64Data_of. rewrite Ho.
  cbn [mbind option_bind].
  replace ("data:" +:+ file_type file +:+ ";base64," +:+ payload)
    with (("data:" +:+ file_type file +:+ ";base64") +:+ "," +:+ payload)
    by (now rewrite !append_assoc).
  apply split_at_1_payload; [|exact Hp].
  rewrite !comma_free_app, Ht. reflexivity.
Qed.

Lemma upload_keeps_the_payload_witness :
  base64Data_of
    (ui (run (handleFileUpload (Some sample_file))
           (sample_world failing_service) (boot initial_state))) =
  Some "QUJD".
Proof.
  pose proof (upload_keeps_the_payload (sample_world failing_service)
                (boot initial_state) sample_file "data:image/png;base64"
                "QUJD" eq_refl eq_refl eq_refl eq_refl eq_refl) as H.
  cbv zeta in H. destruct H as (_ & _ & H). exact H.
Defined.

(** ** Vocabulary and display *)

Ltac some_member :=
  solve [ exists MAHOGANY; reflexivity | exists ASH; reflexivity
        | exists ALDER; reflexivity | exists MAPLE; reflexivity
        | exists BASSWOOD; reflexivity | exists KOA; reflexivity
        | exists MODERN_C; reflexivity | exists VINTAGE_50S; reflexivity
        | exists SLIM_TAPER; reflexivity | exists WIZARD; reflexivity
        | exists ROSEWOOD; reflexivity | exists FB_MAPLE; reflexivity
        | exists EBONY; reflexivity | exists PAU_FERRO; reflexivity
        | exists TUNE_O_MATIC; reflexivity | exists HARDTAIL; reflexivity
        | exists SYNCHRONIZED_TREMOLO; reflexivity
        | exists FLOYD_ROSE; reflexivity | exists EVERTUNE; reflexivity ].

Ltac table_keys H :=
  repeat (apply lookup_insert_Some in H as [[<- _] | [_ H]];
          [some_member|]);
  rewrite lookup_empty in H; discriminate H.

(** X25 - the characteristic tables hold nothing but the enumerations:
    every key of a table is the value of a member of its enumeration,
    and no two members of an enumeration (pickup configurations
    included) share a value, so no entry overwrites another and the
    options of a select are distinct. *)
Theorem tables_hold_nothing_else :
  ((forall key s : string, WOOD_CHARACTERISTICS !! key = Some s ->
      exists w : BodyWood, key = BodyWood_value w) /\
   (forall key s : string, NECK_CHARACTERISTICS !! key = Some s ->
      exists p : NeckProfile, key = NeckProfile_value p) /\
   (forall key s : string, BRIDGE_MECHANICS !! key = Some s ->
      exists b : BridgeSystem, key = BridgeSystem_value b) /\
   (forall key s : string, FRETBOARD_RESPONSE !! key = Some s ->
      exists f : FretboardMaterial, key = FretboardMaterial_value f)) /\
  ((forall a b : BodyWood, BodyWood_value a = BodyWood_value b -> a = b) /\
   (forall a b : NeckProfile,
      NeckProfile_value a = NeckProfile_value b -> a = b) /\
   (forall a b : BridgeSystem,
      BridgeSystem_value a = BridgeSystem_value b -> a = b) /\
   (forall a b : FretboardMaterial,
      FretboardMaterial_value a = FretboardMaterial_value b -> a = b) /\
   (forall a b : PickupConfig,
      PickupConfig_value a = PickupConfig_value b -> a = b)).
Proof.
  split.
  - repeat split; intros key s H.
    + unfold WOOD_CHARACTERISTICS in H. table_keys H.
    + unfold NECK_CHARACTERISTICS in H. table_keys H.
    + unfold BRIDGE_MECHANICS in H. table_keys H.
    + unfold FRETBOARD_RESPONSE in H. table_keys H.
  - repeat split; intros [] [] H; solve [reflexivity | discriminate H].
Qed.

(** X26 - for every fretboard material the hint shown under the select
    exists: it is the text of the table entry before its first comma,
    which is not empty. *)
Theorem fretboard_hint_is_first_clause (specs : GuitarSpecs) :
  exists hint rest : string,
    fretboard_hint specs = Some hint /\
    hint <> "" /\
    comma_free hint = true /\
    FRETBOARD_RESPONSE !! FretboardMaterial_value (fretboard specs) =
      Some (hint +:+ "," +:+ rest).
Proof.
  unfold fretboard_hint. destruct (fretboard specs).
  - exists "Oily open pore",
      " warm attack, attenuates harsh high frequencies.".
    repeat split; try discriminate; vm_compute; reflexivity.
  - exists "Finished surface",
      " bright snap, distinct separation of notes.".
    repeat split; try discriminate; vm_compute; reflexivity.
  - exists "Extreme hardness",
      " glass-like surface, immediate transient attack.".
    repeat split; try discriminate; vm_compute; reflexivity.
  - exists "Harder than rosewood",
      " snappy attack, tight grain structure.".
    repeat split; try discriminate; vm_compute; reflexivity.
Qed.

(** X27 - the DETECTED SPECS panel is absent without an analysis result
    and otherwise shows five lines, none of them empty (a missing or
    empty field reads Unknown); but an analysis that succeeds with a
    result lacking the detected specs is stored by the upload without
    any error message, and the panel then cannot be rendered, while the
    generation falls back on the default philosophy. *)
Theorem detected_panel_needs_detected_specs
  (w : World) (m : Machine) (file : File) (url : string)
  (r : AnalysisResult) :
  FileReader_readAsDataURL w file = Return url ->
  analysis_outcome w (JS.split_at_1 "," url) = Return (Some r) ->
  let s' := ui (run (handleFileUpload (Some file)) w m) in
  (analysisResult (ui m) = None -> detected_panel (ui m) = Return None) /\
  (forall d : PartialSpecs,
     detectedSpecs r = Some d ->
     exists lines : list (string * string),
       detected_panel s' = Return (Some (lines, luthierNotes r)) /\
       map fst lines =
         ["PHILOSOPHY"; "CONSTRUCTION"; "WOOD"; "BRIDGE"; "PICKUPS"] /\
       Forall (fun line => snd line <> "") lines) /\
  (detectedSpecs r = None ->
   detected_panel s' = Throw TypeError /\
   error s' = None /\
   philosophy_of s' = "Standard Industry Design").
Proof.
  intros Hf Ha s'. unfold s'.
  destruct (handleFileUpload_run file url w m Hf) as (_ & -> & _).
  rewrite Ha. split; [|split].
  - intros H. unfold detected_panel. now rewrite H.
  - intros d Hd. unfold detected_panel.
    cbn [analysisResult with_isAnalyzing with_analysisResult]. rewrite Hd.
    eexists. split; [reflexivity|]. split; [reflexivity|].
    repeat constructor; cbn [snd]; apply or_else_nonempty; discriminate.
  - intros Hd. unfold detected_panel, philosophy_of.
    cbn [analysisResult with_isAnalyzing with_analysisResult mbind
         option_bind]. rewrite Hd. now repeat split.
Qed.

Lemma detected_panel_needs_detected_specs_witness :
  detected_panel
    (ui (run (handleFileUpload (Some sample_file))
           (parsing_world (mkAnalysisResult None "bright"))
           (boot initial_state))) = Throw TypeError.
Proof.
  pose proof (detected_panel_needs_detected_specs
                (parsing_world (mkAnalysisResult None "bright"))
                (boot initial_state) sample_file sample_image
                (mkAnalysisResult None "bright") eq_refl eq_refl) as H.
  cbv zeta in H. destruct H as (_ & _ & H). apply H. reflexivity.
Defined.

(** ** Editing the specs *)

Lemma onChange_run (e : Edit) (w : World) (m : Machine) :
  result (onChange e) w m = Return tt /\
  calls (run (onChange e) w m) = calls m /\
  ui (run (onChange e) w m) =
    with_specs (specs (ui (run (onChange e) w m))) (ui m) /\
  ((forall v, e <> EditNotes v) ->
   notes (specs (ui (run (onChange e) w m))) = notes (specs (ui m))).
Proof.
  destruct e; repeat split; try reflexivity.
  intros H. now destruct (H v).
Qed.

(** X28 - edits of the body wood, fretboard, neck, bridge and pickups
    change the specs only, issue no call and leave the notes alone: after
    any number of them the instruction for the synthesizer is the one the
    notes gave before, so only an edit of the notes (or the preset) can
    switch between the two instructions. *)
Theorem hardware_edits_keep_the_mode
  (edits : list Edit) (w : World) (m : Machine) (p : string) :
  Forall (fun e => forall v, e <> EditNotes v) edits ->
  let m' := edit_all edits w m in
  notes (specs (ui m')) = notes (specs (ui m)) /\
  philosophyInstruction_of (specs (ui m')) p =
    philosophyInstruction_of (specs (ui m)) p /\
  ui m' = with_specs (specs (ui m')) (ui m) /\
  calls m' = calls m.
Proof.
  intros H. revert m. unfold edit_all.
  induction H as [|e rest He _ IH]; intros m; cbn [map handle_all].
  - repeat split. now destruct m as [[] ? ?].
  - destruct (onChange_run e w m) as (_ & Hc & Hu & Hn).
    specialize (IH (run (onChange e) w m)). cbv zeta in IH.
    destruct IH as (IH1 & IH2 & IH3 & IH4).
    split; [|split; [|split]].
    + rewrite IH1. now apply Hn.
    + rewrite IH2. unfold philosophyInstruction_of. now rewrite (Hn He).
    + rewrite IH3, Hu. reflexivity.
    + now rewrite IH4.
Qed.

Lemma hardware_edits_keep_the_mode_witness :
  philosophyInstruction_of
    (specs (ui (edit_all [EditBridge EVERTUNE; EditBodyWood KOA]
                  fluent_world
                  (run applyFrankensteinPreset fluent_world
                     (boot initial_state)))))
    "Modular (Fender)" =
  philosophyInstruction_of
    (specs (ui (run applyFrankensteinPreset fluent_world
                  (boot initial_state))))
    "Modular (Fender)".
Proof.
  apply (hardware_edits_keep_the_mode [EditBridge EVERTUNE; EditBodyWood KOA]
           fluent_world
           (run applyFrankensteinPreset fluent_world (boot initial_state))
           "Modular (Fender)").
  repeat constructor; discriminate.
Defined.

(** X29 - the preset absorbs what it overwrites: edits of the body wood,
    bridge, pickups and notes made before it leave no trace once it is
    applied, and applying it twice gives the specs of applying it
    once. *)
Theorem preset_absorbs_its_fields
  (edits : list Edit) (w : World) (m : Machine) :
  Forall (fun e =>
            match e with
            | EditBodyWood _ | EditBridge _ | EditPickups _ | EditNotes _ =>
                True
            | EditFretboard _ | EditNeckProfile _ => False
            end) edits ->
  specs (ui (run applyFrankensteinPreset w (edit_all edits w m))) =
    specs (ui (run applyFrankensteinPreset w m)) /\
  specs (ui (run applyFrankensteinPreset w
               (run applyFrankensteinPreset w m))) =
    specs (ui (run applyFrankensteinPreset w m)).
Proof.
  intros H. split; [|reflexivity].
  change (frankenstein_preset (specs (ui (edit_all edits w m))) =
          frankenstein_preset (specs (ui m))).
  revert m. unfold edit_all.
  induction H as [|e rest He _ IH]; intros m; cbn [map handle_all];
    [reflexivity|].
  rewrite IH. now destruct e.
Qed.

Lemma preset_absorbs_its_fields_witness :
  specs (ui (run applyFrankensteinPreset fluent_world
               (edit_all [EditNotes "clean"; EditBridge HARDTAIL]
                  fluent_world (boot initial_state)))) =
  specs (ui (run applyFrankensteinPreset fluent_world
               (boot initial_state))).
Proof.
  apply (preset_absorbs_its_fields [EditNotes "clean"; EditBridge HARDTAIL]
           fluent_world (boot initial_state)).
  repeat constructor.
Defined.

(** ** Without a credential *)

Lemma initChat_no_key (w : World) (m : Machine) :
  JS.truthy (API_KEY w) = false -> initChat w m = (Return tt, m).
Proof.
  intros Hk. unfold initChat, try_catch, bind.
  now rewrite createLuthierChatSession_eq, Hk.
Qed.

Lemma handleSendMessage_no_session (w : World) (m : Machine) :
  chatSession (ui m) = None -> handleSendMessage w m = (Return tt, m).
Proof.
  intros Hs. unfold handleSendMessage, bind, snapshot, ret.
  destruct (JS.trim_is_empty (chatInput (ui m))); [reflexivity|].
  now rewrite Hs.
Qed.

Lemma upload_frame_helper (file_opt : option File) (w : World)
  (m : Machine) :
  chatSession (ui (run (handleFileUpload file_opt) w m)) =
    chatSession (ui m) /\
  chatHistory (ui (run (handleFileUpload file_opt) w m)) =
    chatHistory (ui m).
Proof.
  set (I := fun s : AppState =>
              chatSession s = chatSession (ui m) /\
              chatHistory s = chatHistory (ui m)).
  assert (K : keeps I (handleFileUpload file_opt)).
  { unfold handleFileUpload, performAnalysis. unfold_setters.
    destruct file_opt as [file|]; repeat keeps_step. }
  apply (passes_ui I m); [now split | apply K; now split].
Qed.

Lemma handleFileUpload_no_key (file : File) (w : World) (m : Machine) :
  JS.truthy (API_KEY w) = false ->
  calls (run (handleFileUpload (Some file)) w m) = calls m /\
  analysisResult (ui (run (handleFileUpload (Some file)) w m)) =
    match FileReader_readAsDataURL w file with
    | Return _ => None
    | Throw _ => analysisResult (ui m)
    end /\
  generatedImage (ui (run (handleFileUpload (Some file)) w m)) =
    match FileReader_readAsDataURL w file with
    | Return _ => None
    | Throw _ => generatedImage (ui m)
    end /\
  generatedPrompt (ui (run (handleFileUpload (Some file)) w m)) =
    match FileReader_readAsDataURL w file with
    | Return _ => None
    | Throw _ => generatedPrompt (ui m)
    end.
Proof.
  intros Hk. destruct (FileReader_readAsDataURL w file) as [url|e] eqn:Hf.
  - destruct (handleFileUpload_run file url w m Hf) as (_ & Hu & Hc).
    cbv zeta in Hu, Hc. unfold analysis_outcome in Hu.
    rewrite Hk in Hu, Hc. rewrite Hu, Hc, app_nil_r. now repeat split.
  - unfold run, handleFileUpload. exec. unfold fileToGenerativePart.
    rewrite Hf. now repeat split.
Qed.

(** X30 - in a world without credential the program started from its
    initial state never contacts the service, whatever the user does and
    in whatever order: after any sequence of events no call has been
    issued, there is no chat session and no transcript (not even the
    greeting, and sends are ignored), no analysis result, no prompt and
    no image. *)
Theorem no_credential_no_call (w : World) (events : list Event) :
  JS.truthy (API_KEY w) = false ->
  let m' := handle_all (map handle events) w (boot initial_state) in
  calls m' = [] /\
  chatSession (ui m') = None /\
  chatHistory (ui m') = [] /\
  analysisResult (ui m') = None /\
  generatedPrompt (ui m') = None /\
  generatedImage (ui m') = None.
Proof.
  intros Hk.
  set (Inv := fun m : Machine =>
                calls m = [] /\ chatSession (ui m) = None /\
                chatHistory (ui m) = [] /\ analysisResult (ui m) = None /\
                generatedPrompt (ui m) = None /\
                generatedImage (ui m) = None).
  assert (Hstep : forall ev m, Inv m -> Inv (run (handle ev) w m)).
  { intros ev m (Hc & Hs & Hh & Ha & Hp & Hi).
    assert (Hsend : run handleSendMessage w m = m)
      by (unfold run; now rewrite (handleSendMessage_no_session w m Hs)).
    destruct ev as [|[file|]| | |e|text| |key|tab]; cbn [handle].
    - unfold run. rewrite (initChat_no_key w m Hk). now repeat split.
    - destruct (handleFileUpload_no_key file w m Hk) as (Hc' & Ha' & Hi' & Hp').
      destruct (upload_frame_helper (Some file) w m) as (Hs' & Hh').
      unfold Inv. rewrite Hc', Ha', Hi', Hp', Hs', Hh'.
      destruct (FileReader_readAsDataURL w file); now repeat split.
    - now repeat split.
    - destruct (JS.truthy (originalImage (ui m))) eqn:Ho.
      + destruct (handleSimulate_no_key w m Ho Hk) as [Hu Hc'].
        unfold Inv. rewrite Hu, Hc'. now repeat split.
      + unfold run. rewrite (handleSimulate_idle w m Ho). now repeat split.
    - now repeat split.
    - destruct (onChange_run e w m) as (_ & Hc' & Hu & _).
      unfold Inv. rewrite Hc', Hu. now repeat split.
    - now repeat split.
    - rewrite Hsend. now repeat split.
    - unfold onKeyDown. destruct (String.eqb key "Enter");
        [rewrite Hsend|]; now repeat split.
    - now repeat split. }
  assert (Hall : forall m, Inv m -> Inv (handle_all (map handle events) w m)).
  { induction events as [|ev rest IH]; intros m Hm; cbn [map handle_all];
      [exact Hm|]. apply IH. now apply Hstep. }
  apply Hall. now repeat split.
Qed.

Lemma no_credential_no_call_witness :
  calls (handle_all
           (map handle
              [Mount; Upload (Some sample_file); Preset; Simulate;
               TypeText question; Send; Key "Enter"])
           keyless_world (boot initial_state)) = [].
Proof.
  pose proof (no_credential_no_call keyless_world
                [Mount; Upload (Some sample_file); Preset; Simulate;
                 TypeText question; Send; Key "Enter"] eq_refl) as H.
  cbv zeta in H. destruct H as [H _]. exact H.
Defined.
